(** * DCGM common/Task.hpp: tasks, promises and bounded retries

    A shallow embedding of [DcgmNs::NamedBasicTask], [DcgmNs::Task],
    [DcgmNs::TaskWithAttempts] and the [make_task] helpers, with the part of
    [std::promise] that [Run] and [SetPromise] rely on.

    - C++ types that the helpers compute with are a small inductive type
      ([CxxTypes]).
    - The shared states of promises live in a store; a promise object is a
      handle into it, and the future of a caller reads the same cell.
    - A callable is a function on the state it captures; calling it may end in
      a value or in a thrown exception.
    - A member function is a function on the world that ends in a value or in
      a thrown exception; [try_catch] is the [try { } catch (...) { }] block. *)

From Stdlib Require Import ZArith NArith String Ascii List Lia.
From Stdlib Require Import HexadecimalString HexadecimalN.
From stdpp Require Import base option gmap.

Local Open Scope Z_scope.

(** ** The type computation of the helpers *)

Module CxxTypes.

(** The types that matter to [OptionalNestedType]: [void], any other type
    that is no [std::optional] (named), and [std::optional<T>]. *)
Inductive ctype : Type :=
| Void
| Named (name : string)
| Optional (t : ctype).


Definition is_optional (t : ctype) : bool :=
  match t with
  | Optional _ => true
  | _ => false
  end.

(** [OptionalNestedType<T>::type]: the primary template gives [T], the
    partial specialization for [std::optional<T>] recurses into [T]. *)
Fixpoint OptionalNestedType (t : ctype) : ctype :=
  match t with
  | Optional t' => OptionalNestedType t'
  | _ => t
  end.

Definition OptionalNestedType_t := OptionalNestedType.

(** An instantiation [NamedBasicTask<T, PromiseType>]. *)
Record NamedBasicTask_inst : Type :=
  { inst_T : ctype; inst_PromiseType : ctype }.


(** [TaskWithAttempts<T>::BaseType] is [NamedBasicTask<T>]. *)
Definition TaskWithAttempts_BaseType (t : ctype) : NamedBasicTask_inst :=
  {| inst_T := t; inst_PromiseType := t |}.


(** The declared result of [make_task_with_attempts(attempts, Fn)]; the
    [requires] clause refuses a callable whose flattened result is [void]. *)
Definition make_task_with_attempts_type (invoke_result : ctype)
  : option NamedBasicTask_inst :=
  match OptionalNestedType_t invoke_result with
  | Void => None
  | t => Some (TaskWithAttempts_BaseType t)
  end.

(** [k] layers of [std::optional] around [t]. *)
Fixpoint nested_optional (k : nat) (t : ctype) : ctype :=
  match k with
  | O => t
  | S k' => Optional (nested_optional k' t)
  end.





End CxxTypes.

(** ** Exceptions and outcomes *)

(** [std::future_errc]. *)
Inductive future_errc : Type :=
| broken_promise
| future_already_retrieved
| promise_already_satisfied
| no_state.

(** An exception object: a [std::future_error] of the library, or whatever
    the callable throws (of type [E]). *)
Inductive exn (E : Type) : Type :=
| future_error (c : future_errc)
| thrown (e : E).
Arguments future_error {E} c.
Arguments thrown {E} e.

(** How a call ends: it returns a value or an exception leaves it. *)
Inductive completion (E A : Type) : Type :=
| Normal (a : A)
| Thrown (x : exn E).
Arguments Normal {E A} a.
Arguments Thrown {E A} x.

(** [ITask::RunResult]. *)
Inductive RunResult : Type :=
| Ok
| Deferred.

(** ** [std::promise]: the shared state *)

(** The shared state of a promise and its future: not ready, or ready with a
    value or with an exception. *)
Inductive shared_state (E P : Type) : Type :=
| Pending
| Value (v : P)
| Exception (x : exn E).
Arguments Pending {E P}.
Arguments Value {E P} v.
Arguments Exception {E P} x.

(** A promise object is a handle on a shared state. A handle that the store
    does not map is a promise without shared state (a moved-from promise). *)
Definition promise := nat.

(** ** [int] *)

Definition INT_MIN : Z := - 2 ^ 31.
Definition INT_MAX : Z := 2 ^ 31 - 1.

(** The [int] that a two's complement machine keeps of a mathematical
    result. *)
Definition wrap_int (z : Z) : Z := (z + 2 ^ 31) mod 2 ^ 32 - 2 ^ 31.

(** [--m]. ISO C++ leaves the decrement of [INT_MIN] undefined; the targets
    DCGM is built for compute it with wrap-around. *)
Definition pre_decrement (m : Z) : Z := wrap_int (m - 1).

(** ** [std::string::c_str] *)

Definition NUL : ascii := "000"%char.

(** The string a reader of the returned [char const *] sees: the characters
    before the first NUL. *)
Fixpoint c_str (s : string) : string :=
  match s with
  | EmptyString => EmptyString
  | String c s' => if Ascii.eqb c NUL then EmptyString else String c (c_str s')
  end.

Fixpoint has_NUL (s : string) : bool :=
  match s with
  | EmptyString => false
  | String c s' => Ascii.eqb c NUL || has_NUL s'
  end.

(** ** The world, callables and member functions *)

Section Tasks.

(** [E]: what callables throw. [St]: the state callables capture and
    change. [P]: the value type of the promises ([unit] for
    [std::promise<void>]). *)
Context {E St P : Type}.

(** The shared states of all promises, the state the callables work on and
    the number of invocations of task functions so far. *)
Record world : Type :=
  { heap : gmap promise (shared_state E P);
    env : St;
    calls : nat }.

Definition set_heap (h : gmap promise (shared_state E P)) (w : world) : world :=
  {| heap := h; env := env w; calls := calls w |}.

(** A [std::function<A()>]: from the captured state to how the call ends
    and the state it leaves. *)
Definition callable (A : Type) : Type := St -> completion E A * St.

(** A computation on the world that returns an [A] or throws. The world it
    leaves is kept in both cases. *)
Definition M (A : Type) : Type := world -> completion E A * world.

Definition mret {A} (a : A) : M A := fun w => (Normal a, w).

Definition mbind {A B} (m : M A) (k : A -> M B) : M B :=
  fun w =>
    match m w with
    | (Normal a, w') => k a w'
    | (Thrown x, w') => (Thrown x, w')
    end.

(** [try { body } catch (...) { handler }], the handler receiving
    [std::current_exception()]. *)
Definition try_catch {A} (body : M A) (handler : exn E -> M A) : M A :=
  fun w =>
    match body w with
    | (Normal a, w') => (Normal a, w')
    | (Thrown x, w') => handler x w'
    end.

(** [std::invoke(f)]. *)
Definition std_invoke {A} (f : callable A) : M A :=
  fun w =>
    let (r, s) := f (env w) in
    (r, {| heap := heap w; env := s; calls := S (calls w) |}).

(** [std::promise::set_value] as the C++ standard has it
    ([futures.promise]): it stores the value in a shared state that is not
    ready and makes it ready, and throws a [std::future_error], with
    [promise_already_satisfied] if the shared state already holds a value or
    an exception, with [no_state] if the promise has no shared state. *)
Definition set_value (p : promise) (v : P) : M unit :=
  fun w =>
    match heap w !! p with
    | Some Pending => (Normal tt, set_heap (<[p := Value v]> (heap w)) w)
    | Some _ => (Thrown (future_error promise_already_satisfied), w)
    | None => (Thrown (future_error no_state), w)
    end.

(** [std::promise::set_exception], with the same two failures. *)
Definition set_exception (p : promise) (x : exn E) : M unit :=
  fun w =>
    match heap w !! p with
    | Some Pending => (Normal tt, set_heap (<[p := Exception x]> (heap w)) w)
    | Some _ => (Thrown (future_error promise_already_satisfied), w)
    | None => (Thrown (future_error no_state), w)
    end.

(** What the destructor of a promise leaves in its shared state
    ([futures.state], abandoning): a state that is not ready becomes ready
    with a [std::future_error] of [broken_promise], which [get()] of the
    future throws; a ready state keeps what it holds. *)
Definition abandon (s : shared_state E P) : shared_state E P :=
  match s with
  | Pending => Exception (future_error broken_promise)
  | _ => s
  end.

(** [std::promise::~promise]; it does not throw. *)
Definition destroy_promise (p : promise) (w : world) : world :=
  set_heap (alter abandon p (heap w)) w.

(** Destruction of what a [std::unique_ptr<std::promise>] owns, if
    anything. *)
Definition destroy_owned (o : option promise) (w : world) : world :=
  match o with
  | Some p => destroy_promise p w
  | None => w
  end.

End Tasks.

Arguments world : clear implicits.
Arguments M : clear implicits.
Arguments callable : clear implicits.

Declare Scope task_scope.
Delimit Scope task_scope with task.
Notation "x <- m ;; k" := (mbind m (fun x => k))
  (at level 100, m at next level, right associativity) : task_scope.
Notation "m ;;; k" := (mbind m (fun _ => k))
  (at level 100, right associativity) : task_scope.

Local Open Scope task_scope.

(** ** [fmt::format("Unknown at {:#x}", std::size_t(this))] *)

(** [{:#x}]: lower-case hexadecimal digits after [0x]. *)
Definition fmt_hex (n : N) : string :=
  ("0x" ++ HexadecimalString.NilZero.string_of_uint (N.to_hex_uint n))%string.

Definition fmt_Unknown_at (this : N) : string :=
  ("Unknown at " ++ fmt_hex this)%string.

(** ** [NamedBasicTask<T, PromiseType>] *)

(** The two ways the class template is instantiated: [PromiseType = void]
    (from [Task<void>], with [T = int]) and [PromiseType = T] (the default).
    It decides the [if constexpr] of [Run]. *)
Inductive promise_type (T : Type) : Type -> Type :=
| PromiseVoid : promise_type T unit
| PromiseSame : promise_type T T.
Arguments PromiseVoid {T}.
Arguments PromiseSame {T}.

Section NamedBasicTask.

Context {E St T : Type}.

Record NamedBasicTask : Type :=
  { m_promise : option promise;
    m_func : callable E St (option T);
    m_taskName : string }.

Definition with_promise (o : option promise) (t : NamedBasicTask)
  : NamedBasicTask :=
  {| m_promise := o; m_func := m_func t; m_taskName := m_taskName t |}.

(** [NamedBasicTask(std::string taskName, std::function<std::optional<T>()> func)] *)
Definition NamedBasicTask_ctor (taskName : string)
    (func : callable E St (option T)) : NamedBasicTask :=
  {| m_promise := None; m_func := func; m_taskName := taskName |}.

(** [NamedBasicTask(std::function<std::optional<T>()> func)], for the object
    at address [this]. *)
Definition NamedBasicTask_ctor_unnamed (this : N)
    (func : callable E St (option T)) : NamedBasicTask :=
  NamedBasicTask_ctor (fmt_Unknown_at this) func.

(** [SetPromise]: the assignment to [m_promise] destroys the promise the
    task owned before. *)
Definition SetPromise {P} (promise : promise) (t : NamedBasicTask)
    (w : world E St P) : NamedBasicTask * world E St P :=
  (with_promise (Some promise) t, destroy_owned (m_promise t) w).

(** The [if constexpr] of [Run]: [set_value()] for a [void] promise,
    [set_value(std::move(result.value()))] otherwise. *)
Definition set_promise_value {P} (k : promise_type T P) (p : promise) (v : T)
  : M E St P unit :=
  match k in promise_type _ P' return M E St P' unit with
  | PromiseVoid => set_value p tt
  | PromiseSame => set_value p v
  end.

(** [Run]. The [try] block gives [Some r] where the source returns [r]
    from inside it and [None] where control reaches its end; so does the
    handler, which never returns from inside. *)
Definition Run {P} (k : promise_type T P) (t : NamedBasicTask)
  : M E St P RunResult :=
  returned <-
    try_catch
      (result <- std_invoke (m_func t) ;;
       match result with
       | None => mret (Some Deferred)
       | Some v =>
           match m_promise t with
           | Some p => set_promise_value k p v
           | None => mret tt
           end ;;;
           mret None
       end)
      (fun x =>
         match m_promise t with
         | Some p => set_exception p x
         | None => mret tt
         end ;;;
         mret None) ;;
  match returned with
  | Some r => mret r
  | None => mret Ok
  end.

(** [GetName]: [m_taskName.c_str()]. *)
Definition GetName (t : NamedBasicTask) : string := c_str (m_taskName t).

End NamedBasicTask.

Arguments NamedBasicTask : clear implicits.

(** ** [Task<void>] and [Task<T>] *)

Section Task.

Context {E St : Type}.

(** The lambda of the [Task<void>] constructors:
    [[func] { std::invoke(func); return 0; }]. *)
Definition void_lambda (func : callable E St unit) : callable E St (option Z) :=
  fun s =>
    match func s with
    | (Normal _, s') => (Normal (Some 0), s')
    | (Thrown x, s') => (Thrown x, s')
    end.

(** [Task<void>(std::string taskName, std::function<void()> func)] *)
Definition Task_void_ctor (taskName : string) (func : callable E St unit)
  : NamedBasicTask E St Z :=
  NamedBasicTask_ctor taskName (void_lambda func).

(** [Task<void>(std::function<void()> func)] *)
Definition Task_void_ctor_unnamed (this : N) (func : callable E St unit)
  : NamedBasicTask E St Z :=
  NamedBasicTask_ctor_unnamed this (void_lambda func).

(** [Run] of a [Task<void>], a [NamedBasicTask<int, void>]. *)
Definition Task_void_Run (t : NamedBasicTask E St Z) : M E St unit RunResult :=
  Run PromiseVoid t.

Context {T : Type}.

(** [Task<T>(std::string taskName, std::function<std::optional<T>()> func)] *)
Definition Task_ctor (taskName : string) (func : callable E St (option T))
  : NamedBasicTask E St T :=
  NamedBasicTask_ctor taskName func.

(** [Task<T>(std::function<std::optional<T>()> func)] *)
Definition Task_ctor_unnamed (this : N) (func : callable E St (option T))
  : NamedBasicTask E St T :=
  NamedBasicTask_ctor_unnamed this func.

(** [Run] of a [Task<T>], a [NamedBasicTask<T, T>]. *)
Definition Task_Run (t : NamedBasicTask E St T) : M E St T RunResult :=
  Run PromiseSame t.


(** *** [make_task]

    [std::make_unique] constructs the task at the address [this] of the
    fresh allocation. The overload is chosen by the result type of the
    callable: [void] gives a [Task<void>], [std::optional<T>] a [Task<T>]. *)
Definition make_task (this : N) (func : callable E St (option T))
  : NamedBasicTask E St T :=
  Task_ctor_unnamed this func.

Definition make_task_named (taskName : string)
    (func : callable E St (option T)) : NamedBasicTask E St T :=
  Task_ctor taskName func.

Definition make_task_void (this : N) (func : callable E St unit)
  : NamedBasicTask E St Z :=
  Task_void_ctor_unnamed this func.

Definition make_task_void_named (taskName : string)
    (func : callable E St unit) : NamedBasicTask E St Z :=
  Task_void_ctor taskName func.

End Task.

(** ** [TaskWithAttempts<T>] *)

Section TaskWithAttempts.

Context {E St T : Type}.

Record TaskWithAttempts : Type :=
  { base : NamedBasicTask E St T;
    m_attempts : Z }.

(** [TaskWithAttempts(std::string taskName, int attempts, func)] *)
Definition TaskWithAttempts_ctor (taskName : string) (attempts : Z)
    (func : callable E St (option T)) : TaskWithAttempts :=
  {| base := NamedBasicTask_ctor taskName func; m_attempts := attempts |}.

(** [TaskWithAttempts(int attempts, func)] *)
Definition TaskWithAttempts_ctor_unnamed (this : N) (attempts : Z)
    (func : callable E St (option T)) : TaskWithAttempts :=
  {| base := NamedBasicTask_ctor_unnamed this func; m_attempts := attempts |}.

(** [TaskWithAttempts::Run]. The object is part of the result: what [Run]
    leaves in [m_attempts] and [m_promise]. An exception of [BaseType::Run]
    leaves the function before it changes the object. *)
Definition TaskWithAttempts_Run (t : TaskWithAttempts) (w : world E St T)
  : completion E RunResult * TaskWithAttempts * world E St T :=
  match Run PromiseSame (base t) w with
  | (Thrown x, w1) => (Thrown x, t, w1)
  | (Normal result, w1) =>
      match result with
      | Deferred =>
          let attempts := pre_decrement (m_attempts t) in
          if attempts =? 0 then
            (Normal Ok,
             {| base := with_promise None (base t); m_attempts := attempts |},
             destroy_owned (m_promise (base t)) w1)
          else
            (Normal result, {| base := base t; m_attempts := attempts |}, w1)
      | Ok => (Normal result, t, w1)
      end
  end.

(** [SetPromise], inherited from the base. *)
Definition TaskWithAttempts_SetPromise (promise : promise)
    (t : TaskWithAttempts) (w : world E St T)
  : TaskWithAttempts * world E St T :=
  let (b, w') := SetPromise promise (base t) w in
  ({| base := b; m_attempts := m_attempts t |}, w').

(** [make_task_with_attempts], without and with a name. *)
Definition make_task_with_attempts (this : N) (attempts : Z)
    (func : callable E St (option T)) : TaskWithAttempts :=
  TaskWithAttempts_ctor_unnamed this attempts func.

Definition make_task_with_attempts_named (taskName : string) (attempts : Z)
    (func : callable E St (option T)) : TaskWithAttempts :=
  TaskWithAttempts_ctor taskName attempts func.

(** [n] calls of [Run] in a row, as a runner makes them that keeps calling
    whatever [Run] returns: the results in order, and the object and the
    world after the last. *)
Fixpoint Run_times (n : nat) (t : TaskWithAttempts) (w : world E St T)
  : list (completion E RunResult) * TaskWithAttempts * world E St T :=
  match n with
  | O => ([], t, w)
  | S n' =>
      let '(r, t1, w1) := TaskWithAttempts_Run t w in
      let '(rs, t2, w2) := Run_times n' t1 w1 in
      (r :: rs, t2, w2)
  end.

End TaskWithAttempts.

Arguments TaskWithAttempts : clear implicits.

(** ** Sequences of operations on a task *)

Section Operations.

Context {E St T P : Type}.

(** What a holder of a task can do with it. *)
Inductive task_op : Type :=
| OpRun
| OpSetPromise (p : promise).

(** The operations in order; a runner that catches what [Run] throws goes
    on with the next. *)
Fixpoint exec (k : promise_type T P) (ops : list task_op)
    (t : NamedBasicTask E St T) (w : world E St P)
  : NamedBasicTask E St T * world E St P :=
  match ops with
  | [] => (t, w)
  | OpRun :: ops' => exec k ops' t (snd (Run k t w))
  | OpSetPromise p :: ops' =>
      let (t', w') := SetPromise p t w in exec k ops' t' w'
  end.

(** The defaulted move assignment [*this = std::move(other)]: the members
    are move-assigned one by one, so the task takes the promise, the function
    and the name of [other], and the promise it owned before is destroyed.
    ([other] itself is left without promise and with a name and a function
    in the valid but unspecified state of a moved-from [std::string] and
    [std::function].) *)
Definition move_assign (other t : NamedBasicTask E St T) (w : world E St P)
  : NamedBasicTask E St T * world E St P :=
  (other, destroy_owned (m_promise t) w).

(** What can happen to a task object that is not moved from. *)
Inductive lifetime_op : Type :=
| LRun
| LSetPromise (p : promise)
| LMoveAssign (other : NamedBasicTask E St T).

Fixpoint lifetime (k : promise_type T P) (ops : list lifetime_op)
    (t : NamedBasicTask E St T) (w : world E St P)
  : NamedBasicTask E St T * world E St P :=
  match ops with
  | [] => (t, w)
  | LRun :: ops' => lifetime k ops' t (snd (Run k t w))
  | LSetPromise p :: ops' =>
      let (t', w') := SetPromise p t w in lifetime k ops' t' w'
  | LMoveAssign other :: ops' =>
      let (t', w') := move_assign other t w in lifetime k ops' t' w'
  end.

(** The task last move-assigned to the object in [ops], or [t] when there is
    no move assignment. *)
Fixpoint last_assigned (ops : list lifetime_op) (t : NamedBasicTask E St T)
  : NamedBasicTask E St T :=
  match ops with
  | [] => t
  | LMoveAssign other :: ops' => last_assigned ops' other
  | _ :: ops' => last_assigned ops' t
  end.

Definition is_move_assignment (o : lifetime_op) : bool :=
  match o with
  | LMoveAssign _ => true
  | _ => false
  end.

(** The value a promise of this instantiation receives for the result [v]
    of the callable. *)
Definition promised_value (k : promise_type T P) (v : T) : P :=
  match k in promise_type _ P' return P' with
  | PromiseVoid => tt
  | PromiseSame => v
  end.

(** The world right after the invocation of the function of [t]. *)
Definition invoked (t : NamedBasicTask E St T) (w : world E St P)
  : world E St P :=
  {| heap := heap w; env := snd (m_func t (env w)); calls := S (calls w) |}.

(** The promise of [t], if any, has a shared state, and that state is not
    ready: the promise is neither satisfied already nor without shared state
    (moved from). *)
Definition unsettled (t : NamedBasicTask E St T) (w : world E St P) : Prop :=
  match m_promise t with
  | Some p => heap w !! p = Some Pending
  | None => True
  end.

(** What [set_value] and [set_exception] throw for a state they cannot
    change. *)
Definition refusal (s : option (shared_state E P)) : future_errc :=
  match s with
  | None => no_state
  | Some _ => promise_already_satisfied
  end.

End Operations.

(** ** The callable over several invocations *)

(** The state a callable has left after [n] invocations from [s]. *)
Fixpoint state_after {E St A : Type} (func : callable E St A) (n : nat)
    (s : St) : St :=
  match n with
  | O => s
  | S n' => state_after func n' (snd (func s))
  end.

(** ** [getThisExecsLocation] of the test of the plugin directories *)

Module TestFrameworkTests.

(** What the function throws, and what [std::string::substr] can throw. *)
Inductive std_exception : Type :=
| runtime_error (what : string)
| out_of_range.

(** [std::string::npos], the largest [size_t]. *)
Definition npos : N := 2 ^ 64 - 1.

Fixpoint char_in (a : ascii) (chars : string) : bool :=
  match chars with
  | EmptyString => false
  | String c chars' => Ascii.eqb a c || char_in a chars'
  end.

(** The last index of [s] with a character of [chars], if there is one. *)
Fixpoint last_index_of (chars : string) (s : string) : option nat :=
  match s with
  | EmptyString => None
  | String a s' =>
      match last_index_of chars s' with
      | Some i => Some (S i)
      | None => if char_in a chars then Some O else None
      end
  end.

(** [s.find_last_of(chars)]: that index, or [npos]. *)
Definition find_last_of (s : string) (chars : string) : N :=
  match last_index_of chars s with
  | Some i => N.of_nat i
  | None => npos
  end.

(** [s.substr(pos, count)]: [std::out_of_range] ([None]) for a [pos] beyond
    the size, else the characters from [pos], [count] of them or as many as
    there are. *)
Definition substr (s : string) (pos count : N) : option string :=
  let size := N.of_nat (String.length s) in
  if (size <? pos)%N then None
  else Some (String.substring (N.to_nat pos)
               (N.to_nat (N.min count (size - pos))) s).

(** [readlink(path, buf, bufsiz)] on a link with the given content ([None]:
    the link cannot be read, the call returns -1): the bytes placed in
    [buf], at most [bufsiz] of the content. *)
Definition readlink (content : option string) (bufsiz : nat) : option string :=
  match content with
  | Some target => Some (String.substring 0 bufsiz target)
  | None => None
  end.

(** [getThisExecsLocation], for the content [exe] of [/proc/<pid>/exe]. The
    buffer of 1024 zero bytes receives at most 1023 bytes and a NUL after
    them; [path] is the C string in it. *)
Definition getThisExecsLocation (exe : option string)
  : completion std_exception string :=
  match readlink exe 1023 with
  | Some placed =>
      let path := c_str placed in
      match substr path 0 (find_last_of path "/") with
      | Some parentDir => Normal parentDir
      | None => Thrown (thrown out_of_range)
      end
  | None => Thrown (thrown (runtime_error "Test error. Expected bytes >= 0"))
  end.

End TestFrameworkTests.

(** ** Concrete tasks and worlds

    Callables that count their invocations in the captured state, throw
    strings, and work for tasks with [int] results. *)

Module Samples.

Definition ready (v : Z) : callable string nat (option Z) :=
  fun s => (Normal (Some v), S s).

(** Yields the number of earlier invocations. *)
Definition counting : callable string nat (option Z) :=
  fun s => (Normal (Some (Z.of_nat s)), S s).

Definition not_ready : callable string nat (option Z) :=
  fun s => (Normal None, S s).

Definition failing (what : string) : callable string nat (option Z) :=
  fun s => (Thrown (thrown what), S s).

(** Not ready at the first two invocations, then 42. *)
Definition third_time : callable string nat (option Z) :=
  fun s => (if (s <? 2)%nat then Normal None else Normal (Some 42), S s).

Definition returning : callable string nat unit :=
  fun s => (Normal tt, S s).

(** One promise, with handle 1, in the given state. *)
Definition one_promise {P : Type} (s : shared_state string P)
  : world string nat P :=
  {| heap := <[1%nat := s]> ∅; env := O; calls := O |}.

(** A fresh promise, with handle 1. *)
Definition fresh : world string nat Z := one_promise Pending.

(** Two fresh promises, with handles 1 and 2. *)
Definition two_fresh : world string nat Z :=
  {| heap := <[2%nat := Pending]> (<[1%nat := Pending]> ∅);
     env := O; calls := O |}.

(** Promise 1 fresh, promise 2 satisfied by its owner with the value 5. *)
Definition second_satisfied : world string nat Z :=
  {| heap := <[2%nat := Value 5]> (<[1%nat := Pending]> ∅);
     env := O; calls := O |}.

(** A fresh [std::promise<void>]. *)
Definition fresh_void : world string nat unit := one_promise Pending.

(** [make_task("poll", func)] followed by [SetPromise] of promise 1. *)
Definition attached {T : Type} (func : callable string nat (option T))
  : NamedBasicTask string nat T :=
  fst (SetPromise 1%nat (make_task_named "poll" func)
         (one_promise (P:=T) Pending)).

(** [make_task("tick", returning)] followed by [SetPromise] of promise 1. *)
Definition attached_void : NamedBasicTask string nat Z :=
  fst (SetPromise 1%nat (make_task_void_named "tick" returning) fresh_void).

(** The world a first [Run] of the task leaves, from a fresh promise. *)
Definition after_Run (t : NamedBasicTask string nat Z) : world string nat Z :=
  snd (Run PromiseSame t fresh).

Definition after_Run_void : world string nat unit :=
  snd (Task_void_Run attached_void fresh_void).

(** [make_task_with_attempts("retry", attempts, not_ready)] followed by
    [SetPromise] of promise 1. *)
Definition with_attempts (attempts : Z) : TaskWithAttempts string nat Z :=
  fst (TaskWithAttempts_SetPromise 1%nat
         (make_task_with_attempts_named "retry" attempts not_ready) fresh).

(** A name with an embedded NUL: the three characters a, NUL, b. *)
Definition name_with_NUL : string :=
  String "a" (String NUL (String "b" EmptyString)).

End Samples.

(** * Properties *)

(** ** [int] and strings *)

Lemma pre_decrement_in_range (m : Z) :
  INT_MIN < m <= INT_MAX -> pre_decrement m = m - 1.
Proof.
  unfold pre_decrement, wrap_int, INT_MIN, INT_MAX. intros Hm.
  rewrite Z.mod_small by lia. lia.
Qed.

Lemma pre_decrement_INT_MIN : pre_decrement INT_MIN = INT_MAX.
Proof. reflexivity. Qed.

Lemma c_str_no_NUL (s : string) : has_NUL s = false -> c_str s = s.
Proof.
  induction s as [|c s IH]; simpl; [reflexivity|].
  destruct (Ascii.eqb c NUL); simpl; [discriminate|].
  intros H. now rewrite IH.
Qed.

Lemma c_str_fmt_Unknown_at_nonempty (this : N) :
  c_str (fmt_Unknown_at this) <> EmptyString.
Proof. unfold fmt_Unknown_at. simpl. discriminate. Qed.

Lemma Pending_or_not {E P : Type} (o : option (shared_state E P)) :
  o = Some Pending \/ o <> Some Pending.
Proof. destruct o as [[| |]|]; (now left) || (now right). Qed.

(** ** [Run], case by case *)

Section RunCases.

Context {E St T P : Type}.
Variable k : promise_type T P.
Variable t : NamedBasicTask E St T.
Variable w : world E St P.

Lemma set_promise_value_eq p v :
  set_promise_value (E:=E) (St:=St) k p v = set_value p (promised_value k v).
Proof. destruct k; reflexivity. Qed.

Lemma Run_Deferred :
  fst (m_func t (env w)) = Normal None ->
  Run k t w = (Normal Deferred, invoked t w).
Proof.
  unfold Run, invoked, mbind, try_catch, std_invoke, mret.
  destruct (m_func t (env w)) as [r s]; simpl. now intros ->.
Qed.

Lemma Run_value_without_promise v :
  fst (m_func t (env w)) = Normal (Some v) ->
  m_promise t = None ->
  Run k t w = (Normal Ok, invoked t w).
Proof.
  unfold Run, invoked, mbind, try_catch, std_invoke, mret.
  destruct (m_func t (env w)) as [r s]; simpl. intros -> Hp.
  now rewrite Hp.
Qed.

Lemma Run_value_Pending v p :
  fst (m_func t (env w)) = Normal (Some v) ->
  m_promise t = Some p ->
  heap w !! p = Some Pending ->
  Run k t w =
    (Normal Ok,
     set_heap (<[p := Value (promised_value k v)]> (heap w)) (invoked t w)).
Proof.
  unfold Run, invoked, mbind, try_catch, std_invoke, mret.
  destruct (m_func t (env w)) as [r s]; simpl. intros -> Hp Hs.
  rewrite Hp, set_promise_value_eq. unfold set_value; simpl.
  now rewrite Hs.
Qed.

Lemma Run_value_refused v p :
  fst (m_func t (env w)) = Normal (Some v) ->
  m_promise t = Some p ->
  heap w !! p <> Some Pending ->
  Run k t w = (Thrown (future_error (refusal (heap w !! p))), invoked t w).
Proof.
  unfold Run, invoked, mbind, try_catch, std_invoke, mret.
  destruct (m_func t (env w)) as [r s]; simpl. intros -> Hp Hs.
  rewrite Hp, set_promise_value_eq. unfold set_value, set_exception; simpl.
  destruct (heap w !! p) as [[| |]|] eqn:Hl; simpl; rewrite ?Hl;
    congruence || reflexivity.
Qed.

Lemma Run_thrown_without_promise x :
  fst (m_func t (env w)) = Thrown x ->
  m_promise t = None ->
  Run k t w = (Normal Ok, invoked t w).
Proof.
  unfold Run, invoked, mbind, try_catch, std_invoke, mret.
  destruct (m_func t (env w)) as [r s]; simpl. intros -> Hp.
  now rewrite Hp.
Qed.

Lemma Run_thrown_Pending x p :
  fst (m_func t (env w)) = Thrown x ->
  m_promise t = Some p ->
  heap w !! p = Some Pending ->
  Run k t w =
    (Normal Ok, set_heap (<[p := Exception x]> (heap w)) (invoked t w)).
Proof.
  unfold Run, invoked, mbind, try_catch, std_invoke, mret.
  destruct (m_func t (env w)) as [r s]; simpl. intros -> Hp Hs.
  rewrite Hp. unfold set_exception; simpl. now rewrite Hs.
Qed.

Lemma Run_thrown_refused x p :
  fst (m_func t (env w)) = Thrown x ->
  m_promise t = Some p ->
  heap w !! p <> Some Pending ->
  Run k t w = (Thrown (future_error (refusal (heap w !! p))), invoked t w).
Proof.
  unfold Run, invoked, mbind, try_catch, std_invoke, mret.
  destruct (m_func t (env w)) as [r s]; simpl. intros -> Hp Hs.
  rewrite Hp. unfold set_exception; simpl.
  destruct (heap w !! p) as [[| |]|] eqn:Hl; simpl; congruence || reflexivity.
Qed.

(** Whatever happens, [Run] invokes the function once: the state of the
    callable and the count of invocations are those after one call. *)
Lemma Run_env_calls :
  env (snd (Run k t w)) = snd (m_func t (env w)) /\
  calls (snd (Run k t w)) = S (calls w).
Proof.
  destruct (fst (m_func t (env w))) as [[v|]|x] eqn:Hf.
  - destruct (m_promise t) as [p|] eqn:Hp.
    + destruct (Pending_or_not (heap w !! p)) as [Hs|Hs].
      * rewrite (Run_value_Pending v p Hf Hp Hs). now split.
      * rewrite (Run_value_refused v p Hf Hp Hs). now split.
    + rewrite (Run_value_without_promise v Hf Hp). now split.
  - rewrite (Run_Deferred Hf). now split.
  - destruct (m_promise t) as [p|] eqn:Hp.
    + destruct (Pending_or_not (heap w !! p)) as [Hs|Hs].
      * rewrite (Run_thrown_Pending x p Hf Hp Hs). now split.
      * rewrite (Run_thrown_refused x p Hf Hp Hs). now split.
    + rewrite (Run_thrown_without_promise x Hf Hp). now split.
Qed.

(** [Run] changes no shared state but the one of the promise of the task. *)
Lemma Run_frame q :
  m_promise t <> Some q ->
  heap (snd (Run k t w)) !! q = heap w !! q.
Proof.
  intros Hq.
  destruct (fst (m_func t (env w))) as [[v|]|x] eqn:Hf.
  - destruct (m_promise t) as [p|] eqn:Hp.
    + destruct (Pending_or_not (heap w !! p)) as [Hs|Hs].
      * rewrite (Run_value_Pending v p Hf Hp Hs). simpl.
        apply lookup_insert_ne. congruence.
      * now rewrite (Run_value_refused v p Hf Hp Hs).
    + now rewrite (Run_value_without_promise v Hf Hp).
  - now rewrite (Run_Deferred Hf).
  - destruct (m_promise t) as [p|] eqn:Hp.
    + destruct (Pending_or_not (heap w !! p)) as [Hs|Hs].
      * rewrite (Run_thrown_Pending x p Hf Hp Hs). simpl.
        apply lookup_insert_ne. congruence.
      * now rewrite (Run_thrown_refused x p Hf Hp Hs).
    + now rewrite (Run_thrown_without_promise x Hf Hp).
Qed.

(** With no promise or one that is not ready, [Run] returns. *)
Lemma Run_unsettled_returns :
  unsettled t w ->
  fst (Run k t w) =
    Normal (match fst (m_func t (env w)) with
            | Normal None => Deferred
            | _ => Ok
            end).
Proof.
  unfold unsettled. intros Hu.
  destruct (fst (m_func t (env w))) as [[v|]|x] eqn:Hf.
  - destruct (m_promise t) as [p|] eqn:Hp.
    + now rewrite (Run_value_Pending v p Hf Hp Hu).
    + now rewrite (Run_value_without_promise v Hf Hp).
  - now rewrite (Run_Deferred Hf).
  - destruct (m_promise t) as [p|] eqn:Hp.
    + now rewrite (Run_thrown_Pending x p Hf Hp Hu).
    + now rewrite (Run_thrown_without_promise x Hf Hp).
Qed.

(** X1: [Run] throws exactly when the function has not deferred and the promise
    of the task refuses the result; what leaves [Run] is then the
    [std::future_error] of the promise, not what the function threw. *)
Lemma Run_throws_iff x :
  fst (Run k t w) = Thrown x <->
  exists p, m_promise t = Some p /\
            heap w !! p <> Some Pending /\
            fst (m_func t (env w)) <> Normal None /\
            x = future_error (refusal (heap w !! p)).
Proof.
  destruct (fst (m_func t (env w))) as [[v|]|y] eqn:Hf.
  - destruct (m_promise t) as [p|] eqn:Hp.
    + destruct (Pending_or_not (heap w !! p)) as [Hs|Hs].
      * rewrite (Run_value_Pending v p Hf Hp Hs). simpl. split.
        -- discriminate.
        -- intros (q & Hq & Hn & _). congruence.
      * rewrite (Run_value_refused v p Hf Hp Hs). simpl. split.
        -- intros [= <-]. exists p. repeat split; auto; try discriminate.
        -- intros (q & Hq & _ & _ & ->). congruence.
    + rewrite (Run_value_without_promise v Hf Hp). simpl. split.
      * discriminate.
      * intros (q & Hq & _). discriminate.
  - rewrite (Run_Deferred Hf). simpl. split.
    + discriminate.
    + intros (q & _ & _ & Hn & _). congruence.
  - destruct (m_promise t) as [p|] eqn:Hp.
    + destruct (Pending_or_not (heap w !! p)) as [Hs|Hs].
      * rewrite (Run_thrown_Pending y p Hf Hp Hs). simpl. split.
        -- discriminate.
        -- intros (q & Hq & Hn & _). congruence.
      * rewrite (Run_thrown_refused y p Hf Hp Hs). simpl. split.
        -- intros [= <-]. exists p. repeat split; auto; try discriminate.
        -- intros (q & Hq & _ & _ & ->). congruence.
    + rewrite (Run_thrown_without_promise y Hf Hp). simpl. split.
      * discriminate.
      * intros (q & Hq & _). discriminate.
Qed.

End RunCases.

(** ** [NamedBasicTask::Run] *)

(** A promise without shared state (moved from) is not settled either, and
    refuses a result just as a satisfied one does: [Run] lets the
    [std::future_error] with [no_state] out. *)
Lemma Run_on_promise_without_state {E St T P : Type} (k : promise_type T P)
    (t : NamedBasicTask E St T) (w : world E St P) (p : promise) :
  m_promise t = Some p ->
  heap w !! p = None ->
  fst (m_func t (env w)) <> Normal None ->
  fst (Run k t w) = Thrown (future_error no_state).
Proof.
  intros Hp Hs Hf.
  apply (proj2 (Run_throws_iff k t w (future_error no_state))).
  exists p. rewrite Hs. repeat split; auto; discriminate.
Qed.

(** C1, at the second call of [Run] of a task with a promise: the first
    call returns [Ok] and makes the promise ready with the value 0 the
    function yields. At the second call the function yields 1, yet [Run]
    does not return [Ok] (the [std::future_error] of [set_value], thrown
    again by [set_exception] in the handler, leaves it) and the promise
    keeps the value 0. *)
Lemma second_Run_with_value_throws :
  (fst (Run PromiseSame (Samples.attached Samples.counting) Samples.fresh)
     = Normal Ok /\
   heap (Samples.after_Run (Samples.attached Samples.counting)) !! 1%nat
     = Some (Value 0)) /\
  fst (m_func (Samples.attached Samples.counting)
         (env (Samples.after_Run (Samples.attached Samples.counting))))
    = Normal (Some 1) /\
  m_promise (Samples.attached Samples.counting) = Some 1%nat /\
  fst (Run PromiseSame (Samples.attached Samples.counting)
         (Samples.after_Run (Samples.attached Samples.counting)))
    = Thrown (future_error promise_already_satisfied) /\
  fst (Run PromiseSame (Samples.attached Samples.counting)
         (Samples.after_Run (Samples.attached Samples.counting)))
    <> Normal Ok /\
  heap (snd (Run PromiseSame (Samples.attached Samples.counting)
               (Samples.after_Run (Samples.attached Samples.counting))))
    !! 1%nat = Some (Value 0).
Proof. repeat split; try reflexivity. discriminate. Qed.

(** C1, for a promise with a shared state that is not ready: every call of
    [Run] invokes the function exactly once.
    If the function yields no value, [Run] returns [Deferred] and leaves all
    shared states as they were. If it yields a value and the attached
    promise, if any, has a shared state that is not ready ([unsettled]), [Run]
    returns [Ok] and the promise is
    made ready with that value ([promised_value]: the value itself, or the
    empty value of a [void] promise); nothing else changes. *)
Theorem Run_invokes_once_and_delivers {E St T P : Type}
    (k : promise_type T P) (t : NamedBasicTask E St T) (w : world E St P) :
  (calls (snd (Run k t w)) = S (calls w) /\
   env (snd (Run k t w)) = snd (m_func t (env w))) /\
  (fst (m_func t (env w)) = Normal None ->
   fst (Run k t w) = Normal Deferred /\ heap (snd (Run k t w)) = heap w) /\
  (forall v, fst (m_func t (env w)) = Normal (Some v) ->
   unsettled t w ->
   fst (Run k t w) = Normal Ok /\
   heap (snd (Run k t w)) =
     match m_promise t with
     | Some p => <[p := Value (promised_value k v)]> (heap w)
     | None => heap w
     end).
Proof.
  split; [|split].
  - destruct (Run_env_calls k t w) as [He Hc]. now split.
  - intros Hf. now rewrite (Run_Deferred k t w Hf).
  - intros v Hf Hu. unfold unsettled in Hu.
    destruct (m_promise t) as [p|] eqn:Hp.
    + now rewrite (Run_value_Pending k t w v p Hf Hp Hu).
    + now rewrite (Run_value_without_promise k t w v Hf Hp).
Qed.

Lemma Run_invokes_once_and_delivers_witness :
  unsettled (Samples.attached (Samples.ready 7)) Samples.fresh /\
  fst (Run PromiseSame (Samples.attached (Samples.ready 7))
         Samples.fresh) = Normal Ok /\
  heap (snd (Run PromiseSame (Samples.attached (Samples.ready 7))
               Samples.fresh))
    = <[1%nat := Value 7]> (heap Samples.fresh).
Proof.
  split; [reflexivity|].
  apply (proj2 (proj2 (Run_invokes_once_and_delivers PromiseSame
           (Samples.attached (Samples.ready 7))
           Samples.fresh)) 7); reflexivity.
Defined.

(** C2, at the second call of [Run] of a task with a promise whose function
    throws: the first call returns [Ok] and stores the exception in the
    promise. At the second call the function throws again and [Run] lets a
    [std::future_error] out instead of returning; the second failure is
    stored nowhere. *)
Lemma second_Run_propagates_future_error :
  (fst (Run PromiseSame (Samples.attached (Samples.failing "boom"))
          Samples.fresh) = Normal Ok /\
   heap (Samples.after_Run (Samples.attached (Samples.failing "boom")))
     !! 1%nat = Some (Exception (thrown "boom"%string))) /\
  fst (m_func (Samples.attached (Samples.failing "boom"))
         (env (Samples.after_Run (Samples.attached (Samples.failing "boom")))))
    = Thrown (thrown "boom"%string) /\
  fst (Run PromiseSame (Samples.attached (Samples.failing "boom"))
         (Samples.after_Run (Samples.attached (Samples.failing "boom"))))
    = Thrown (future_error promise_already_satisfied) /\
  (forall r,
     fst (Run PromiseSame (Samples.attached (Samples.failing "boom"))
            (Samples.after_Run (Samples.attached (Samples.failing "boom"))))
       <> Normal r).
Proof. repeat split; try reflexivity. discriminate. Qed.

(** C2, for a promise with a shared state that is not ready: when the
    attached promise, if any, has a shared state that is not ready
    ([unsettled]), [Run]
    propagates no failure: it returns, with [Deferred] exactly when the
    function returns no value and with [Ok] otherwise. If the function
    throws, [Run] returns [Ok], an attached promise is made ready with the
    captured exception, and without a promise the exception is dropped and
    no shared state changes. *)
Theorem Run_contains_failures {E St T P : Type}
    (k : promise_type T P) (t : NamedBasicTask E St T) (w : world E St P) :
  unsettled t w ->
  (exists r, fst (Run k t w) = Normal r /\
             (r = Deferred <-> fst (m_func t (env w)) = Normal None)) /\
  (forall x, fst (m_func t (env w)) = Thrown x ->
   fst (Run k t w) = Normal Ok /\
   heap (snd (Run k t w)) =
     match m_promise t with
     | Some p => <[p := Exception x]> (heap w)
     | None => heap w
     end).
Proof.
  intros Hu. split.
  - rewrite (Run_unsettled_returns k t w Hu). eexists; split; [reflexivity|].
    destruct (fst (m_func t (env w))) as [[v|]|x]; split; congruence.
  - intros x Hf. unfold unsettled in Hu.
    destruct (m_promise t) as [p|] eqn:Hp.
    + now rewrite (Run_thrown_Pending k t w x p Hf Hp Hu).
    + now rewrite (Run_thrown_without_promise k t w x Hf Hp).
Qed.

Lemma Run_contains_failures_witness :
  unsettled (Samples.attached (Samples.failing "boom")) Samples.fresh /\
  fst (Run PromiseSame (Samples.attached (Samples.failing "boom"))
         Samples.fresh) = Normal Ok /\
  heap (snd (Run PromiseSame (Samples.attached (Samples.failing "boom"))
               Samples.fresh))
    = <[1%nat := Exception (thrown "boom"%string)]> (heap Samples.fresh).
Proof.
  split; [reflexivity|].
  apply (proj2 (Run_contains_failures PromiseSame
           (Samples.attached (Samples.failing "boom")) Samples.fresh
           eq_refl) (thrown "boom"%string)); reflexivity.
Defined.

(** C7, at the call after a first [Run] has returned [Ok]: from the same
    state, the task without promise returns [Ok], and the task with the
    promise returns nothing, a [std::future_error] leaves its [Run]. *)
Lemma Run_result_depends_on_ready_promise :
  fst (Run PromiseSame
         (with_promise None (Samples.attached Samples.counting))
         (Samples.after_Run (Samples.attached Samples.counting)))
    = Normal Ok /\
  fst (Run PromiseSame
         (with_promise (Some 1%nat) (Samples.attached Samples.counting))
         (Samples.after_Run (Samples.attached Samples.counting)))
    = Thrown (future_error promise_already_satisfied) /\
  fst (Run PromiseSame
         (with_promise None (Samples.attached Samples.counting))
         (Samples.after_Run (Samples.attached Samples.counting)))
    <> fst (Run PromiseSame
              (with_promise (Some 1%nat) (Samples.attached Samples.counting))
              (Samples.after_Run (Samples.attached Samples.counting))).
Proof. repeat split; try reflexivity. discriminate. Qed.

(** C7, for promises with a shared state that is not ready: two executions
    from the same state of a task that differ only in the promise attached,
    each with no promise or with one whose shared state exists and is not
    ready ([unsettled]), return the same [RunResult] and leave the callable in the
    same state after the same single invocation. *)
Theorem Run_result_independent_of_promise {E St T P : Type}
    (k : promise_type T P) (t : NamedBasicTask E St T) (w : world E St P)
    (o1 o2 : option promise) :
  unsettled (with_promise o1 t) w ->
  unsettled (with_promise o2 t) w ->
  fst (Run k (with_promise o1 t) w) = fst (Run k (with_promise o2 t) w) /\
  (exists r, fst (Run k (with_promise o1 t) w) = Normal r) /\
  env (snd (Run k (with_promise o1 t) w))
    = env (snd (Run k (with_promise o2 t) w)) /\
  calls (snd (Run k (with_promise o1 t) w))
    = calls (snd (Run k (with_promise o2 t) w)).
Proof.
  intros H1 H2.
  rewrite (Run_unsettled_returns k _ w H1), (Run_unsettled_returns k _ w H2).
  destruct (Run_env_calls k (with_promise o1 t) w) as [-> ->].
  destruct (Run_env_calls k (with_promise o2 t) w) as [-> ->].
  simpl. repeat split; eauto.
Qed.

Lemma Run_result_independent_of_promise_witness :
  unsettled (with_promise (Some 1%nat) (Samples.attached (Samples.ready 7)))
    Samples.fresh /\
  fst (Run PromiseSame (with_promise None (Samples.attached (Samples.ready 7)))
         Samples.fresh)
  = fst (Run PromiseSame
           (with_promise (Some 1%nat) (Samples.attached (Samples.ready 7)))
           Samples.fresh).
Proof.
  split; [reflexivity|].
  apply (Run_result_independent_of_promise PromiseSame
           (Samples.attached (Samples.ready 7)) Samples.fresh
           None (Some 1%nat)); [exact I | reflexivity].
Defined.

(** ** [Task<void>] *)

(** C10, at the second call of [Run] of a [Task<void>] with a promise: the
    first call returns [Ok]; the second, with the function returning
    normally again, does not return [Ok], a [std::future_error] leaves
    it. *)
Lemma second_Task_void_Run_throws :
  fst (Task_void_Run Samples.attached_void Samples.fresh_void) = Normal Ok /\
  fst (Task_void_Run Samples.attached_void Samples.after_Run_void)
    = Thrown (future_error promise_already_satisfied) /\
  fst (Task_void_Run Samples.attached_void Samples.after_Run_void)
    <> Normal Ok.
Proof. repeat split; try reflexivity. discriminate. Qed.

(** C10, for every call and for a promise with a shared state that is not
    ready: [Run] of
    a [Task<void>] never returns [Deferred], whether
    the function returns normally or throws and whatever the state of the
    promise; and it returns [Ok] whenever the attached promise, if any, has
    a shared state that is not ready ([unsettled]). The lambda of the constructor never yields an empty
    optional. *)
Theorem Task_void_never_defers {E St : Type}
    (func : callable E St unit) (t : NamedBasicTask E St Z)
    (w : world E St unit) :
  m_func t = void_lambda func ->
  fst (m_func t (env w)) <> Normal None /\
  fst (Task_void_Run t w) <> Normal Deferred /\
  (unsettled t w -> fst (Task_void_Run t w) = Normal Ok).
Proof.
  intros Hm.
  assert (Hne : fst (m_func t (env w)) <> Normal None).
  { rewrite Hm. unfold void_lambda.
    destruct (func (env w)) as [[u|x] s]; simpl; discriminate. }
  split; [exact Hne|]. unfold Task_void_Run. split.
  - destruct (fst (m_func t (env w))) as [[v|]|x] eqn:Hf; [|congruence|].
    + destruct (m_promise t) as [p|] eqn:Hp.
      * destruct (Pending_or_not (heap w !! p)) as [Hs|Hs].
        -- now rewrite (Run_value_Pending _ t w v p Hf Hp Hs).
        -- now rewrite (Run_value_refused _ t w v p Hf Hp Hs).
      * now rewrite (Run_value_without_promise _ t w v Hf Hp).
    + destruct (m_promise t) as [p|] eqn:Hp.
      * destruct (Pending_or_not (heap w !! p)) as [Hs|Hs].
        -- now rewrite (Run_thrown_Pending _ t w x p Hf Hp Hs).
        -- now rewrite (Run_thrown_refused _ t w x p Hf Hp Hs).
      * now rewrite (Run_thrown_without_promise _ t w x Hf Hp).
  - intros Hu. rewrite (Run_unsettled_returns _ t w Hu).
    destruct (fst (m_func t (env w))) as [[v|]|x]; congruence.
Qed.

Lemma Task_void_never_defers_witness :
  m_func Samples.attached_void = void_lambda Samples.returning /\
  unsettled Samples.attached_void Samples.fresh_void /\
  fst (Task_void_Run Samples.attached_void Samples.fresh_void) = Normal Ok.
Proof.
  split; [reflexivity|]. split; [reflexivity|].
  apply (Task_void_never_defers Samples.returning Samples.attached_void
           Samples.fresh_void eq_refl); reflexivity.
Defined.

(** ** [TaskWithAttempts::Run] *)

Section TaskWithAttemptsRun.

Context {E St T : Type}.
Variable t : TaskWithAttempts E St T.
Variable w : world E St T.

Lemma heap_destroy_owned (o : option promise) (w' : world E St T) :
  heap (destroy_owned o w') =
    match o with
    | Some p => alter abandon p (heap w')
    | None => heap w'
    end.
Proof. now destruct o. Qed.

(** A [Deferred] of the base that leaves attempts: passed on. *)
Lemma TaskWithAttempts_Run_again :
  fst (m_func (base t) (env w)) = Normal None ->
  pre_decrement (m_attempts t) <> 0 ->
  TaskWithAttempts_Run t w =
    (Normal Deferred,
     {| base := base t; m_attempts := pre_decrement (m_attempts t) |},
     invoked (base t) w).
Proof.
  intros Hf Hm. unfold TaskWithAttempts_Run.
  rewrite (Run_Deferred _ _ _ Hf).
  destruct (Z.eqb_spec (pre_decrement (m_attempts t)) 0); [contradiction|].
  reflexivity.
Qed.

(** A [Deferred] of the base at the last attempt: the promise is destroyed
    and [Ok] returned. *)
Lemma TaskWithAttempts_Run_exhausted :
  fst (m_func (base t) (env w)) = Normal None ->
  pre_decrement (m_attempts t) = 0 ->
  TaskWithAttempts_Run t w =
    (Normal Ok,
     {| base := with_promise None (base t); m_attempts := 0 |},
     destroy_owned (m_promise (base t)) (invoked (base t) w)).
Proof.
  intros Hf Hm. unfold TaskWithAttempts_Run.
  rewrite (Run_Deferred _ _ _ Hf), Hm. reflexivity.
Qed.

End TaskWithAttemptsRun.

(** The first [n] calls of [Run] of a task with [n + 1] attempts whose
    function never yields a value. *)
Lemma Run_times_deferring {E St T : Type} (n : nat) :
  forall (t : TaskWithAttempts E St T) (w : world E St T),
  (forall s, fst (m_func (base t) s) = Normal None) ->
  m_attempts t = Z.of_nat n + 1 ->
  m_attempts t <= INT_MAX ->
  fst (fst (Run_times n t w)) = repeat (Normal Deferred) n /\
  base (snd (fst (Run_times n t w))) = base t /\
  m_attempts (snd (fst (Run_times n t w))) = 1 /\
  heap (snd (Run_times n t w)) = heap w /\
  calls (snd (Run_times n t w)) = (calls w + n)%nat.
Proof.
  induction n as [|n IH]; intros t w Hf Hm Hmax.
  - simpl. repeat split; auto with zarith.
  - assert (Hd : pre_decrement (m_attempts t) = Z.of_nat n + 1).
    { rewrite pre_decrement_in_range; unfold INT_MIN; lia. }
    simpl. rewrite (TaskWithAttempts_Run_again t w (Hf (env w))) by lia.
    specialize (IH {| base := base t;
                      m_attempts := pre_decrement (m_attempts t) |}
                   (invoked (base t) w) Hf Hd).
    destruct (Run_times n _ (invoked (base t) w)) as [[rs t2] w2].
    simpl in *. destruct IH as (-> & -> & -> & -> & ->); [lia|].
    repeat split; lia.
Qed.

(** C3: for every [N] with [1 <= N <= INT_MAX], a [TaskWithAttempts] with
    [N] attempts whose function never yields a value returns [Deferred] on
    each of the first [N - 1] calls of [Run], which leave the promise and all
    shared states alone; the [N]-th call returns [Ok], leaves the task
    without promise and the promise it owned destroyed: a shared state that
    was not ready is ready with [broken_promise], for the future to throw.
    The function has been invoked [N] times. *)
Theorem TaskWithAttempts_exhausts_after_N {E St T : Type}
    (N : Z) (t : TaskWithAttempts E St T) (w : world E St T) :
  1 <= N <= INT_MAX ->
  m_attempts t = N ->
  (forall s, fst (m_func (base t) s) = Normal None) ->
  let '(rs, t1, w1) := Run_times (Z.to_nat (N - 1)) t w in
  let '(r, t2, w2) := TaskWithAttempts_Run t1 w1 in
  (rs = repeat (Normal Deferred) (Z.to_nat (N - 1)) /\
   m_promise (base t1) = m_promise (base t) /\
   heap w1 = heap w) /\
  (r = Normal Ok /\
   m_promise (base t2) = None /\
   heap w2 = match m_promise (base t) with
             | Some p => alter abandon p (heap w)
             | None => heap w
             end /\
   (forall p, m_promise (base t) = Some p ->
              heap w !! p = Some Pending ->
              heap w2 !! p = Some (Exception (future_error broken_promise)))) /\
  Z.of_nat (calls w2) = Z.of_nat (calls w) + N.
Proof.
  intros HN Hm Hf.
  assert (Hm' : m_attempts t = Z.of_nat (Z.to_nat (N - 1)) + 1) by lia.
  destruct (Run_times_deferring (Z.to_nat (N - 1)) t w Hf Hm')
    as (Hrs & Hb & Ha & Hh & Hc); [lia|].
  destruct (Run_times (Z.to_nat (N - 1)) t w) as [[rs t1] w1].
  simpl in Hrs, Hb, Ha, Hh, Hc.
  assert (Hf1 : fst (m_func (base t1) (env w1)) = Normal None)
    by (rewrite Hb; apply Hf).
  rewrite (TaskWithAttempts_Run_exhausted t1 w1 Hf1)
    by (rewrite Ha; reflexivity).
  rewrite Hb.
  assert (Hw2 : heap (destroy_owned (m_promise (base t)) (invoked (base t) w1))
                = match m_promise (base t) with
                  | Some p => alter abandon p (heap w)
                  | None => heap w
                  end).
  { rewrite heap_destroy_owned. simpl. now rewrite Hh. }
  repeat split; auto.
  - intros p Hp Hs. rewrite Hw2, Hp.
    rewrite lookup_alter_eq, Hs. reflexivity.
  - destruct (m_promise (base t)); simpl; lia.
Qed.

Lemma TaskWithAttempts_exhausts_after_N_witness :
  1 <= 3 <= INT_MAX /\
  fst (fst (Run_times 2 (Samples.with_attempts 3) Samples.fresh))
    = [Normal Deferred; Normal Deferred] /\
  fst (fst (TaskWithAttempts_Run
              (snd (fst (Run_times 2 (Samples.with_attempts 3) Samples.fresh)))
              (snd (Run_times 2 (Samples.with_attempts 3) Samples.fresh))))
    = Normal Ok.
Proof.
  assert (H3 : 1 <= 3 <= INT_MAX) by (unfold INT_MAX; lia).
  split; [exact H3|].
  pose proof (TaskWithAttempts_exhausts_after_N 3 (Samples.with_attempts 3)
                Samples.fresh H3 eq_refl (fun _ => eq_refl)) as H.
  change (Z.to_nat (3 - 1)) with 2%nat in H. revert H.
  destruct (Run_times 2 (Samples.with_attempts 3) Samples.fresh)
    as [[rs t1] w1].
  simpl. destruct (TaskWithAttempts_Run t1 w1) as [[r t2] w2]. simpl.
  intros ((Hrs & _) & (Hr & _) & _). split; assumption.
Defined.

(** C4, in the code: with [attempts = 0] the first [Deferred] of the base is
    returned as [Deferred]; the counter goes to -1, the task keeps its
    promise and the shared state stays not ready. *)
Theorem TaskWithAttempts_zero_attempts_defers :
  TaskWithAttempts_Run (Samples.with_attempts 0) Samples.fresh
    = (Normal Deferred, Samples.with_attempts (-1),
       invoked (base (Samples.with_attempts 0)) Samples.fresh) /\
  m_promise (base (snd (fst (TaskWithAttempts_Run (Samples.with_attempts 0)
                               Samples.fresh)))) = Some 1%nat /\
  heap (snd (TaskWithAttempts_Run (Samples.with_attempts 0) Samples.fresh))
    !! 1%nat = Some Pending.
Proof. repeat split. Qed.

(** The same for every [attempts <= 0]: the decrement does not give 0. *)
Lemma TaskWithAttempts_nonpositive_attempts {E St T : Type}
    (t : TaskWithAttempts E St T) (w : world E St T) :
  INT_MIN <= m_attempts t <= 0 ->
  fst (m_func (base t) (env w)) = Normal None ->
  fst (fst (TaskWithAttempts_Run t w)) = Normal Deferred /\
  m_promise (base (snd (fst (TaskWithAttempts_Run t w)))) = m_promise (base t) /\
  heap (snd (TaskWithAttempts_Run t w)) = heap w.
Proof.
  intros Hm Hf.
  rewrite (TaskWithAttempts_Run_again t w Hf); [now repeat split|].
  unfold pre_decrement, wrap_int, INT_MIN in *.
  destruct (Z.eq_dec (m_attempts t) (- 2 ^ 31)) as [->|Hne]; [discriminate|].
  rewrite Z.mod_small by lia. lia.
Qed.

(** C5, at [INT_MIN]: the base returns [Deferred] and the counter goes from
    [INT_MIN] up to [INT_MAX]. *)
Lemma m_attempts_wraps_at_INT_MIN :
  fst (Run PromiseSame (base (Samples.with_attempts INT_MIN)) Samples.fresh)
    = Normal Deferred /\
  m_attempts (snd (fst (TaskWithAttempts_Run (Samples.with_attempts INT_MIN)
                          Samples.fresh))) = INT_MAX /\
  m_attempts (Samples.with_attempts INT_MIN)
    < m_attempts (snd (fst (TaskWithAttempts_Run
                              (Samples.with_attempts INT_MIN) Samples.fresh))).
Proof. repeat split. Qed.

(** C5, above [INT_MIN]: for every [TaskWithAttempts] whose counter is an [int]
    above [INT_MIN], a call of [Run] never increases [m_attempts]: it is one
    less when the [Run] of the base returns [Deferred], and unchanged when
    the base returns [Ok] or throws. *)
Theorem m_attempts_only_decreases {E St T : Type}
    (t : TaskWithAttempts E St T) (w : world E St T) :
  INT_MIN < m_attempts t <= INT_MAX ->
  m_attempts (snd (fst (TaskWithAttempts_Run t w))) <= m_attempts t /\
  (fst (Run PromiseSame (base t) w) = Normal Deferred ->
   m_attempts (snd (fst (TaskWithAttempts_Run t w))) = m_attempts t - 1) /\
  (fst (Run PromiseSame (base t) w) = Normal Ok ->
   m_attempts (snd (fst (TaskWithAttempts_Run t w))) = m_attempts t) /\
  (forall x, fst (Run PromiseSame (base t) w) = Thrown x ->
   m_attempts (snd (fst (TaskWithAttempts_Run t w))) = m_attempts t).
Proof.
  intros Hm. pose proof (pre_decrement_in_range _ Hm) as Hd.
  unfold TaskWithAttempts_Run.
  destruct (Run PromiseSame (base t) w) as [[[|]|x] w1]; simpl.
  - repeat split; intros; (lia || discriminate).
  - destruct (pre_decrement (m_attempts t) =? 0); simpl;
      repeat split; intros; (lia || discriminate).
  - repeat split; intros; (lia || discriminate).
Qed.

Lemma m_attempts_only_decreases_witness :
  INT_MIN < m_attempts (Samples.with_attempts 3) <= INT_MAX /\
  m_attempts (snd (fst (TaskWithAttempts_Run (Samples.with_attempts 3)
                          Samples.fresh))) = 3 - 1.
Proof.
  assert (H3 : INT_MIN < m_attempts (Samples.with_attempts 3) <= INT_MAX)
    by (unfold INT_MIN, INT_MAX; simpl; lia).
  split; [exact H3|].
  apply (m_attempts_only_decreases (Samples.with_attempts 3) Samples.fresh H3).
  reflexivity.
Defined.

(** ** Names *)

(** C6, at a name with an embedded NUL: the task made with the name a, NUL, b
    reports the name a. *)
Lemma GetName_truncates_at_NUL :
  GetName (make_task_named Samples.name_with_NUL (Samples.ready 7))
    = "a"%string /\
  GetName (make_task_named Samples.name_with_NUL (Samples.ready 7))
    <> Samples.name_with_NUL.
Proof. split; [reflexivity|discriminate]. Qed.

Lemma lifetime_taskName {E St T P : Type} (k : promise_type T P)
    (ops : list lifetime_op) :
  forall (t : NamedBasicTask E St T) (w : world E St P),
  m_taskName (fst (lifetime k ops t w)) = m_taskName (last_assigned ops t).
Proof.
  induction ops as [|[|p|other] ops IH]; intros t w; simpl.
  - reflexivity.
  - apply IH.
  - rewrite IH. clear. revert t.
    induction ops as [|[|q|o] ops IH]; intros t; simpl; auto.
  - apply IH.
Qed.

Lemma last_assigned_without_move {E St T : Type}
    (ops : list (@lifetime_op E St T)) :
  forallb (fun o => negb (is_move_assignment o)) ops = true ->
  forall t, last_assigned ops t = t.
Proof.
  induction ops as [|[|p|other] ops IH]; simpl; intros H t; auto.
  discriminate.
Qed.

(** C6, second restriction: a move assignment gives the task the name of
    the source; the task made at address 16 reports the address 32 after
    it. *)
Lemma move_assignment_renames :
  GetName (make_task 16 (Samples.ready 7)) = "Unknown at 0x10"%string /\
  GetName (fst (move_assign (make_task 32 (Samples.ready 7))
                  (make_task 16 (Samples.ready 7)) Samples.fresh))
    = "Unknown at 0x20"%string.
Proof. split; reflexivity. Qed.

(** C6, for names without NUL and objects that are not moved from: for
    every name without NUL character and every callable, the task of
    [make_task(name, fn)] reports exactly that name; the task of
    [make_task(fn)] reports a name that is not empty. [GetName] is a total
    function (it does not throw), and over the lifetime of a task that is
    not moved from it returns the same string after every [Run] and
    [SetPromise]; only a move assignment changes it, to the name of the
    task assigned. *)
Theorem GetName_round_trip {E St T P : Type} :
  (forall (name : string) (func : callable E St (option T))
          (vfunc : callable E St unit),
     has_NUL name = false ->
     GetName (make_task_named name func) = name /\
     GetName (make_task_void_named name vfunc) = name) /\
  (forall (this : N) (func : callable E St (option T))
          (vfunc : callable E St unit),
     GetName (make_task this func) <> EmptyString /\
     GetName (make_task_void this vfunc) <> EmptyString) /\
  (forall (k : promise_type T P) (ops : list lifetime_op)
          (t : NamedBasicTask E St T) (w : world E St P),
     GetName (fst (lifetime k ops t w)) = GetName (last_assigned ops t) /\
     (forallb (fun o => negb (is_move_assignment o)) ops = true ->
      GetName (fst (lifetime k ops t w)) = GetName t)).
Proof.
  split; [|split].
  - intros name func vfunc Hn. unfold GetName; simpl.
    now rewrite (c_str_no_NUL name Hn).
  - intros this func vfunc. unfold GetName; simpl.
    split; apply c_str_fmt_Unknown_at_nonempty.
  - intros k ops t w. unfold GetName. rewrite lifetime_taskName.
    split; [reflexivity|].
    intros H. now rewrite (last_assigned_without_move ops H).
Qed.

Lemma GetName_round_trip_witness :
  has_NUL "poll" = false /\
  GetName (make_task_named "poll" (Samples.ready 7)) = "poll"%string.
Proof.
  split; [reflexivity|].
  apply (proj1 (GetName_round_trip (E:=string) (St:=nat) (T:=Z) (P:=Z))
           "poll"%string (Samples.ready 7) Samples.returning eq_refl).
Defined.

(** ** Result types *)




(** ** [SetPromise] *)

Lemma abandon_idempotent {E P : Type} (s : shared_state E P) :
  abandon (abandon s) = abandon s.
Proof. now destruct s. Qed.

(** C9, at a second promise that is satisfied before it is attached: after
    [SetPromise] of promise 1 and then of promise 2, which holds the value 5
    already, a [Run] whose function yields 7 does not settle promise 2: a
    [std::future_error] leaves [Run] and promise 2 keeps the value 5. *)
Lemma Run_after_SetPromise_of_satisfied_promise :
  let '(t1, w1) := SetPromise 1%nat (make_task_named "poll" (Samples.ready 7))
                     Samples.second_satisfied in
  let '(t2, w2) := SetPromise 2%nat t1 w1 in
  m_promise t2 = Some 2%nat /\
  fst (m_func t2 (env w2)) = Normal (Some 7) /\
  fst (Run PromiseSame t2 w2)
    = Thrown (future_error promise_already_satisfied) /\
  heap (snd (Run PromiseSame t2 w2)) !! 2%nat = Some (Value 5).
Proof. repeat split. Qed.

(** C9, for a second promise with a shared state that is not ready:
    [SetPromise] replaces the promise of the task. After
    [SetPromise(p1)] and [SetPromise(p2)], for distinct promises with [p2]
    not ready, a [Run] whose function yields a value returns [Ok] and makes
    [p2] ready with the value, and changes no other shared state; [p1] is
    as its destruction left it, not touched by [set_value] or
    [set_exception]. A [Run] never changes the shared state of a promise
    that is not attached when it is called. *)
Theorem SetPromise_replaces {E St T P : Type} (k : promise_type T P)
    (t : NamedBasicTask E St T) (w : world E St P) (p1 p2 : promise) (v : T) :
  p1 <> p2 ->
  m_promise t <> Some p2 ->
  heap w !! p2 = Some Pending ->
  fst (m_func t (env w)) = Normal (Some v) ->
  let '(t1, w1) := SetPromise p1 t w in
  let '(t2, w2) := SetPromise p2 t1 w1 in
  let '(r, w3) := Run k t2 w2 in
  (m_promise t1 = Some p1 /\ m_promise t2 = Some p2) /\
  (r = Normal Ok /\
   heap w3 !! p2 = Some (Value (promised_value k v)) /\
   forall q, q <> p2 -> heap w3 !! q = heap w2 !! q) /\
  (heap w2 !! p1 = abandon <$> (heap w !! p1) /\
   heap w3 !! p1 = abandon <$> (heap w !! p1)) /\
  (forall (t' : NamedBasicTask E St T) (w' : world E St P) (q : promise),
     m_promise t' <> Some q ->
     heap (snd (Run k t' w')) !! q = heap w' !! q).
Proof.
  intros Hne Hp2 Hs Hf. unfold SetPromise. simpl.
  set (w1 := destroy_owned (m_promise t) w).
  set (w2 := destroy_promise p1 w1).
  set (t2 := with_promise (Some p2) (with_promise (Some p1) t)).
  assert (H1 : forall q, m_promise t <> Some q -> heap w1 !! q = heap w !! q).
  { intros q Hq. unfold w1. rewrite heap_destroy_owned.
    destruct (m_promise t) as [p0|]; [|reflexivity].
    apply lookup_alter_ne. congruence. }
  assert (H1' : heap w1 !! p1 = heap w !! p1 \/
                heap w1 !! p1 = abandon <$> (heap w !! p1)).
  { unfold w1. rewrite heap_destroy_owned.
    destruct (m_promise t) as [p0|]; [|now left].
    destruct (decide (p0 = p1)) as [->|Hn].
    - right. apply lookup_alter_eq.
    - left. now apply lookup_alter_ne. }
  assert (H21 : heap w2 !! p1 = abandon <$> (heap w !! p1)).
  { unfold w2, destroy_promise; simpl. rewrite lookup_alter_eq.
    destruct H1' as [->| ->]; [reflexivity|].
    destruct (heap w !! p1); simpl; [|reflexivity].
    now rewrite abandon_idempotent. }
  assert (H22 : heap w2 !! p2 = Some Pending).
  { unfold w2, destroy_promise; simpl.
    rewrite lookup_alter_ne by exact Hne. now rewrite H1. }
  assert (He : env w2 = env w).
  { unfold w2, w1, destroy_promise, destroy_owned.
    destruct (m_promise t); reflexivity. }
  assert (Hf2 : fst (m_func t2 (env w2)) = Normal (Some v))
    by (rewrite He; exact Hf).
  rewrite (Run_value_Pending k t2 w2 v p2 Hf2 eq_refl H22). simpl.
  repeat split; auto.
  - apply lookup_insert_eq.
  - intros q Hq. now apply lookup_insert_ne.
  - rewrite lookup_insert_ne by congruence. exact H21.
  - intros t' w' q Hq. now apply Run_frame.
Qed.

Lemma SetPromise_replaces_witness :
  2%nat <> 1%nat /\
  heap Samples.two_fresh !! 1%nat = Some Pending /\
  let '(t1, w1) := SetPromise 2%nat (make_task_named "poll" (Samples.ready 7))
                     Samples.two_fresh in
  let '(t2, w2) := SetPromise 1%nat t1 w1 in
  let '(r, w3) := Run PromiseSame t2 w2 in
  r = Normal Ok /\
  heap w3 !! 1%nat = Some (Value 7) /\
  heap w3 !! 2%nat = Some (Exception (future_error broken_promise)).
Proof.
  assert (Hne : 2%nat <> 1%nat) by discriminate.
  assert (Hp : m_promise (make_task_named (E:=string) (St:=nat) "poll"
                            (Samples.ready 7)) <> Some 1%nat) by discriminate.
  split; [exact Hne|]. split; [reflexivity|].
  pose proof (SetPromise_replaces PromiseSame
                (make_task_named "poll" (Samples.ready 7))
                Samples.two_fresh 2%nat 1%nat 7 Hne Hp eq_refl eq_refl) as H.
  revert H. unfold SetPromise. cbv beta iota.
  destruct (Run PromiseSame _ _) as [r w3].
  intros (_ & (Hr & Hv & _) & (_ & H2) & _).
  split; [exact Hr|]. split; [exact Hv|exact H2].
Defined.

(** * Further properties *)

(** ** Tasks without promise *)

Lemma exec_Runs_without_promise {E St T P : Type} (k : promise_type T P)
    (n : nat) :
  forall (t : NamedBasicTask E St T) (w : world E St P),
  m_promise t = None ->
  exec k (repeat OpRun n) t w
    = (t, {| heap := heap w;
             env := state_after (m_func t) n (env w);
             calls := (n + calls w)%nat |}).
Proof.
  induction n as [|n IH]; intros t w Hp; simpl.
  - now destruct w.
  - destruct (fst (m_func t (env w))) as [[v|]|x] eqn:Hf.
    + rewrite (Run_value_without_promise k t w v Hf Hp). simpl.
      rewrite (IH t _ Hp). simpl. do 2 f_equal. lia.
    + rewrite (Run_Deferred k t w Hf). simpl.
      rewrite (IH t _ Hp). simpl. do 2 f_equal. lia.
    + rewrite (Run_thrown_without_promise k t w x Hf Hp). simpl.
      rewrite (IH t _ Hp). simpl. do 2 f_equal. lia.
Qed.

(** X3: a task that never got a promise (fire and forget) can be run any
    number of times, whatever its function does: no [Run] throws, each
    invokes the function once, and no shared state changes; values and
    exceptions of the function are dropped. *)
Theorem Run_without_promise_is_silent {E St T P : Type}
    (k : promise_type T P) (n : nat) (t : NamedBasicTask E St T)
    (w : world E St P) :
  m_promise t = None ->
  heap (snd (exec k (repeat OpRun n) t w)) = heap w /\
  calls (snd (exec k (repeat OpRun n) t w)) = (n + calls w)%nat /\
  env (snd (exec k (repeat OpRun n) t w)) = state_after (m_func t) n (env w) /\
  (exists r, fst (Run k t (snd (exec k (repeat OpRun n) t w))) = Normal r).
Proof.
  intros Hp. rewrite (exec_Runs_without_promise k n t w Hp). simpl.
  repeat split.
  rewrite Run_unsettled_returns; [eauto|].
  unfold unsettled. now rewrite Hp.
Qed.

Lemma Run_without_promise_is_silent_witness :
  m_promise (make_task_named (E:=string) "log" (Samples.failing "boom")) = None /\
  heap (snd (exec PromiseSame (repeat OpRun 3)
               (make_task_named "log" (Samples.failing "boom"))
               Samples.fresh)) = heap Samples.fresh /\
  calls (snd (exec PromiseSame (repeat OpRun 3)
                (make_task_named "log" (Samples.failing "boom"))
                Samples.fresh)) = 3%nat.
Proof.
  split; [reflexivity|].
  destruct (Run_without_promise_is_silent PromiseSame 3
              (make_task_named "log" (Samples.failing "boom"))
              Samples.fresh eq_refl) as (Hh & Hc & _).
  split; [exact Hh|exact Hc].
Defined.

(** ** [TaskWithAttempts]: retries that end with a value, and their number *)

Lemma TaskWithAttempts_Run_Deferred_inv {E St T : Type}
    (t : TaskWithAttempts E St T) (w : world E St T) :
  fst (fst (TaskWithAttempts_Run t w)) = Normal Deferred ->
  fst (m_func (base t) (env w)) = Normal None /\
  pre_decrement (m_attempts t) <> 0.
Proof.
  unfold TaskWithAttempts_Run.
  destruct (fst (m_func (base t) (env w))) as [[v|]|x] eqn:Hf.
  - destruct (m_promise (base t)) as [p|] eqn:Hp.
    + destruct (Pending_or_not (heap w !! p)) as [Hs|Hs].
      * rewrite (Run_value_Pending _ _ w v p Hf Hp Hs). discriminate.
      * rewrite (Run_value_refused _ _ w v p Hf Hp Hs). discriminate.
    + rewrite (Run_value_without_promise _ _ w v Hf Hp). discriminate.
  - rewrite (Run_Deferred _ _ w Hf).
    destruct (Z.eqb_spec (pre_decrement (m_attempts t)) 0); simpl.
    + discriminate.
    + now split.
  - destruct (m_promise (base t)) as [p|] eqn:Hp.
    + destruct (Pending_or_not (heap w !! p)) as [Hs|Hs].
      * rewrite (Run_thrown_Pending _ _ w x p Hf Hp Hs). discriminate.
      * rewrite (Run_thrown_refused _ _ w x p Hf Hp Hs). discriminate.
    + rewrite (Run_thrown_without_promise _ _ w x Hf Hp). discriminate.
Qed.

(** X4: a [TaskWithAttempts] with [N] attempts, [1 <= N <= INT_MAX], returns
    [Deferred] fewer than [N] times in a row, whatever its function does; and
    while it does, it keeps its promise, changes no shared state and counts
    one attempt down per call. *)
Theorem Deferred_fewer_than_attempts {E St T : Type} (k : nat) :
  forall (t : TaskWithAttempts E St T) (w : world E St T),
  1 <= m_attempts t <= INT_MAX ->
  fst (fst (Run_times k t w)) = repeat (Normal Deferred) k ->
  Z.of_nat k < m_attempts t /\
  m_attempts (snd (fst (Run_times k t w))) = m_attempts t - Z.of_nat k /\
  base (snd (fst (Run_times k t w))) = base t /\
  heap (snd (Run_times k t w)) = heap w.
Proof.
  induction k as [|k IH]; intros t w Hm Hrs.
  - simpl. repeat split; lia.
  - simpl in Hrs |- *.
    destruct (TaskWithAttempts_Run t w) as [[r t1] w1] eqn:HR.
    destruct (Run_times k t1 w1) as [[rs t2] w2] eqn:HT.
    simpl in Hrs |- *. injection Hrs as Hr Hrs'.
    assert (HD : fst (fst (TaskWithAttempts_Run t w)) = Normal Deferred)
      by now rewrite HR.
    destruct (TaskWithAttempts_Run_Deferred_inv t w HD) as [Hf Hd].
    rewrite (TaskWithAttempts_Run_again t w Hf Hd) in HR.
    injection HR as _ Ht1 Hw1.
    assert (Hd' : pre_decrement (m_attempts t) = m_attempts t - 1)
      by (apply pre_decrement_in_range; unfold INT_MIN; lia).
    assert (Hm1 : 1 <= m_attempts t1 <= INT_MAX)
      by (rewrite <- Ht1; simpl; lia).
    specialize (IH t1 w1 Hm1). rewrite HT in IH. simpl in IH.
    destruct (IH Hrs') as (Hk & Ha & Hb & Hh).
    rewrite <- Ht1 in Hk, Ha, Hb. rewrite <- Hw1 in Hh. simpl in *.
    repeat split; try lia; assumption.
Qed.

Lemma Deferred_fewer_than_attempts_witness :
  1 <= m_attempts (Samples.with_attempts 3) <= INT_MAX /\
  (2 < m_attempts (Samples.with_attempts 3))%Z.
Proof.
  assert (H3 : 1 <= m_attempts (Samples.with_attempts 3) <= INT_MAX)
    by (unfold INT_MAX; simpl; lia).
  split; [exact H3|].
  apply (Deferred_fewer_than_attempts 2 (Samples.with_attempts 3)
           Samples.fresh H3 eq_refl).
Defined.

Lemma Run_times_while_not_ready {E St T : Type} (j : nat) :
  forall (t : TaskWithAttempts E St T) (w : world E St T),
  (forall i, (i < j)%nat ->
     fst (m_func (base t) (state_after (m_func (base t)) i (env w)))
       = Normal None) ->
  Z.of_nat j < m_attempts t <= INT_MAX ->
  Run_times j t w
    = (repeat (Normal Deferred) j,
       {| base := base t; m_attempts := m_attempts t - Z.of_nat j |},
       {| heap := heap w;
          env := state_after (m_func (base t)) j (env w);
          calls := (j + calls w)%nat |}).
Proof.
  induction j as [|j IH]; intros t w Hf Hm.
  - simpl. destruct t, w; simpl. now rewrite Z.sub_0_r.
  - assert (Hd : pre_decrement (m_attempts t) = m_attempts t - 1)
      by (apply pre_decrement_in_range; unfold INT_MIN; lia).
    assert (H0 : fst (m_func (base t) (env w)) = Normal None)
      by (apply (Hf O); lia).
    cbn [Run_times].
    rewrite (TaskWithAttempts_Run_again t w H0) by (rewrite Hd; lia).
    rewrite IH; cbn [base m_attempts heap env calls invoked].
    + rewrite Hd.
      replace (m_attempts t - 1 - Z.of_nat j)
        with (m_attempts t - Z.of_nat (S j)) by lia.
      replace (j + S (calls w))%nat with (S j + calls w)%nat by lia.
      reflexivity.
    + intros i Hi. apply (Hf (S i)). lia.
    + rewrite Hd. lia.
Qed.

(** X5: when the function of a [TaskWithAttempts] is not ready [j] times and
    yields a value at invocation [j + 1], with [j] below the number of
    attempts and a fresh promise attached, the first [j] calls of [Run]
    return [Deferred] and the next returns [Ok], makes the promise ready
    with that value and changes no other shared state; the task keeps its
    promise, and [j] attempts are used up. *)
Theorem TaskWithAttempts_delivers_within_attempts {E St T : Type}
    (j : nat) (t : TaskWithAttempts E St T) (w : world E St T)
    (p : promise) (v : T) :
  Z.of_nat j < m_attempts t <= INT_MAX ->
  (forall i, (i < j)%nat ->
     fst (m_func (base t) (state_after (m_func (base t)) i (env w)))
       = Normal None) ->
  fst (m_func (base t) (state_after (m_func (base t)) j (env w)))
    = Normal (Some v) ->
  m_promise (base t) = Some p ->
  heap w !! p = Some Pending ->
  let '(rs, t1, w1) := Run_times j t w in
  let '(r, t2, w2) := TaskWithAttempts_Run t1 w1 in
  rs = repeat (Normal Deferred) j /\
  r = Normal Ok /\
  heap w2 = <[p := Value v]> (heap w) /\
  m_promise (base t2) = Some p /\
  m_attempts t2 = m_attempts t - Z.of_nat j /\
  calls w2 = (S j + calls w)%nat.
Proof.
  intros Hm Hnot Hv Hp Hs.
  rewrite (Run_times_while_not_ready j t w Hnot Hm).
  unfold TaskWithAttempts_Run. simpl base.
  rewrite (Run_value_Pending PromiseSame (base t)
             {| heap := heap w;
                env := state_after (m_func (base t)) j (env w);
                calls := (j + calls w)%nat |} v p Hv Hp Hs). simpl.
  repeat split; assumption.
Qed.

Lemma TaskWithAttempts_delivers_within_attempts_witness :
  let t := {| base := Samples.attached Samples.third_time;
              m_attempts := 3 |} in
  let '(rs, t1, w1) := Run_times 2 t Samples.fresh in
  let '(r, t2, w2) := TaskWithAttempts_Run t1 w1 in
  rs = [Normal Deferred; Normal Deferred] /\
  r = Normal Ok /\
  heap w2 = <[1%nat := Value 42]> (heap Samples.fresh).
Proof.
  assert (Hm : Z.of_nat 2 < 3 <= INT_MAX) by (unfold INT_MAX; simpl; lia).
  assert (Hn : forall i, (i < 2)%nat ->
            fst (Samples.third_time (state_after Samples.third_time i O))
              = Normal None).
  { intros [|[|i]] Hi; [reflexivity|reflexivity|lia]. }
  pose proof (TaskWithAttempts_delivers_within_attempts 2
                {| base := Samples.attached Samples.third_time;
                   m_attempts := 3 |}
                Samples.fresh 1%nat 42 Hm Hn eq_refl eq_refl eq_refl) as H.
  cbv zeta. revert H.
  destruct (Run_times 2 _ Samples.fresh) as [[rs t1] w1].
  destruct (TaskWithAttempts_Run t1 w1) as [[r t2] w2].
  intros (Hrs & Hr & Hh & _). repeat split; assumption.
Defined.

(** ** [Task<void>]: what the promise receives *)

(** X6: [Run] of a [Task<void>] with a fresh promise invokes the function of
    the user once and returns [Ok]; the promise is made ready with the empty
    value when the function returns, and with the exception when it throws;
    no other shared state changes. *)
Theorem Task_void_delivers {E St : Type} (func : callable E St unit)
    (t : NamedBasicTask E St Z) (w : world E St unit) (p : promise) :
  m_func t = void_lambda func ->
  m_promise t = Some p ->
  heap w !! p = Some Pending ->
  fst (Task_void_Run t w) = Normal Ok /\
  env (snd (Task_void_Run t w)) = snd (func (env w)) /\
  calls (snd (Task_void_Run t w)) = S (calls w) /\
  heap (snd (Task_void_Run t w))
    = <[p := match fst (func (env w)) with
             | Normal _ => Value tt
             | Thrown x => Exception x
             end]> (heap w).
Proof.
  intros Hm Hp Hs. unfold Task_void_Run.
  destruct (Run_env_calls PromiseVoid t w) as [He Hc].
  rewrite He, Hc, Hm. unfold void_lambda at 1.
  assert (Hf : fst (m_func t (env w))
               = match fst (func (env w)) with
                 | Normal _ => Normal (Some 0)
                 | Thrown x => Thrown x
                 end).
  { rewrite Hm. unfold void_lambda. now destruct (func (env w)) as [[u|x] s]. }
  destruct (func (env w)) as [[u|x] s]; simpl in *.
  - rewrite (Run_value_Pending PromiseVoid t w 0 p Hf Hp Hs). now simpl.
  - rewrite (Run_thrown_Pending PromiseVoid t w x p Hf Hp Hs). now simpl.
Qed.

Lemma Task_void_delivers_witness :
  heap Samples.fresh_void !! 1%nat = Some Pending /\
  heap (snd (Task_void_Run Samples.attached_void Samples.fresh_void))
    = <[1%nat := Value tt]> (heap Samples.fresh_void).
Proof.
  split; [reflexivity|].
  apply (Task_void_delivers Samples.returning Samples.attached_void
           Samples.fresh_void 1%nat eq_refl eq_refl eq_refl).
Defined.

(** ** [OptionalNestedType] on all types *)

(** X7: for every type, [OptionalNestedType_t] gives a type that is no
    [std::optional], is left alone by a second application, and is what the
    type wraps in some number of [std::optional] layers;
    [make_task_with_attempts] has no instance exactly when that type is
    [void]. *)
Theorem OptionalNestedType_strips_all (t : CxxTypes.ctype) :
  CxxTypes.is_optional (CxxTypes.OptionalNestedType_t t) = false /\
  CxxTypes.OptionalNestedType_t (CxxTypes.OptionalNestedType_t t)
    = CxxTypes.OptionalNestedType_t t /\
  (exists k, t = CxxTypes.nested_optional k (CxxTypes.OptionalNestedType_t t)) /\
  (CxxTypes.make_task_with_attempts_type t = None <->
   CxxTypes.OptionalNestedType_t t = CxxTypes.Void).
Proof.
  unfold CxxTypes.make_task_with_attempts_type, CxxTypes.OptionalNestedType_t.
  induction t as [|name|t IH]; simpl.
  - repeat split; auto. now exists O.
  - repeat split; auto; try discriminate. now exists O.
  - destruct IH as (H1 & H2 & [k Hk] & H4).
    repeat split; auto; try apply H4.
    exists (S k). simpl. now rewrite <- Hk.
Qed.

(** ** Names *)

Lemma c_str_prefix (s : string) :
  exists rest, s = (c_str s ++ rest)%string /\
               (rest = EmptyString \/ exists rest', rest = String NUL rest').
Proof.
  induction s as [|c s (rest & Hs & Hr)]; simpl.
  - exists EmptyString. split; [reflexivity|now left].
  - destruct (Ascii.eqb_spec c NUL) as [->|Hc].
    + exists (String NUL s). split; [reflexivity|]. right. now exists s.
    + exists rest. split; [|exact Hr].
      change (String c s = String c (c_str s ++ rest)%string). now f_equal.
Qed.

Lemma has_NUL_c_str (s : string) : has_NUL (c_str s) = false.
Proof.
  induction s as [|c s IH]; simpl; [reflexivity|].
  destruct (Ascii.eqb c NUL) eqn:Hc; simpl; [reflexivity|].
  now rewrite Hc.
Qed.

(** X8: for every task, whatever its name, [GetName] reports the longest
    prefix of [m_taskName] without NUL: the name is the reported string
    followed by nothing or by a NUL and more, and the reported string holds
    no NUL. *)
Theorem GetName_longest_prefix_without_NUL {E St T : Type}
    (t : NamedBasicTask E St T) :
  has_NUL (GetName t) = false /\
  exists rest, m_taskName t = (GetName t ++ rest)%string /\
               (rest = EmptyString \/ exists rest', rest = String NUL rest').
Proof.
  unfold GetName. split; [apply has_NUL_c_str|apply c_str_prefix].
Qed.

Lemma has_NUL_app (s1 s2 : string) :
  has_NUL (s1 ++ s2) = has_NUL s1 || has_NUL s2.
Proof.
  induction s1 as [|c s1 IH]; simpl; [reflexivity|].
  rewrite IH. now destruct (Ascii.eqb c NUL).
Qed.

Lemma has_NUL_hex_digits (d : Hexadecimal.uint) :
  has_NUL (HexadecimalString.NilEmpty.string_of_uint d) = false.
Proof. induction d; simpl; auto. Qed.

Lemma has_NUL_fmt_Unknown_at (this : N) : has_NUL (fmt_Unknown_at this) = false.
Proof.
  unfold fmt_Unknown_at, fmt_hex. rewrite !has_NUL_app. simpl.
  unfold HexadecimalString.NilZero.string_of_uint.
  destruct (N.to_hex_uint this); try apply has_NUL_hex_digits. reflexivity.
Qed.

Lemma to_hex_uint_not_Nil (n : N) : N.to_hex_uint n <> Hexadecimal.Nil.
Proof.
  intros H. pose proof (HexadecimalN.Unsigned.of_to n) as Hn.
  rewrite H in Hn. simpl in Hn. subst n. discriminate.
Qed.

Lemma fmt_Unknown_at_inj (a b : N) :
  fmt_Unknown_at a = fmt_Unknown_at b -> a = b.
Proof.
  unfold fmt_Unknown_at, fmt_hex. simpl. intros H.
  injection H as H.
  change (HexadecimalString.NilZero.string_of_uint (N.to_hex_uint a)
          = HexadecimalString.NilZero.string_of_uint (N.to_hex_uint b)) in H.
  apply (f_equal HexadecimalString.NilZero.uint_of_string) in H.
  rewrite !HexadecimalString.NilZero.usu in H by apply to_hex_uint_not_Nil.
  injection H as H. now apply HexadecimalN.Unsigned.to_uint_inj.
Qed.

(** X9: the task of [make_task(fn)] (for a function with or without result)
    at address [this] reports exactly the generated name, [Unknown at 0x]
    and the address in hexadecimal digits; tasks made at different
    addresses report different names. *)
Theorem unnamed_tasks_report_their_address {E St T : Type}
    (this this' : N) (func func' : callable E St (option T))
    (vfunc : callable E St unit) :
  GetName (make_task this func) = fmt_Unknown_at this /\
  GetName (make_task_void this vfunc) = fmt_Unknown_at this /\
  (exists digits,
     GetName (make_task this func) = ("Unknown at 0x" ++ digits)%string /\
     digits <> EmptyString) /\
  (GetName (make_task this func) = GetName (make_task this' func') ->
   this = this').
Proof.
  assert (HG : forall a (f : callable E St (option T)),
             GetName (make_task a f) = fmt_Unknown_at a).
  { intros a f. change (c_str (fmt_Unknown_at a) = fmt_Unknown_at a).
    apply c_str_no_NUL, has_NUL_fmt_Unknown_at. }
  split; [apply HG|]. split.
  { change (c_str (fmt_Unknown_at this) = fmt_Unknown_at this).
    apply c_str_no_NUL, has_NUL_fmt_Unknown_at. }
  split.
  - rewrite HG. unfold fmt_Unknown_at, fmt_hex.
    exists (HexadecimalString.NilZero.string_of_uint (N.to_hex_uint this)).
    split; [reflexivity|].
    unfold HexadecimalString.NilZero.string_of_uint.
    pose proof (to_hex_uint_not_Nil this).
    destruct (N.to_hex_uint this); simpl; congruence.
  - rewrite !HG. apply fmt_Unknown_at_inj.
Qed.

Lemma unnamed_tasks_report_their_address_witness :
  GetName (make_task 255 (Samples.ready 7)) = "Unknown at 0xff"%string.
Proof.
  apply (unnamed_tasks_report_their_address 255 255 (Samples.ready 7)
           (Samples.ready 7) Samples.returning).
Defined.

(** ** [getThisExecsLocation] *)

Lemma length_c_str_le (s : string) :
  (String.length (c_str s) <= String.length s)%nat.
Proof.
  induction s as [|c s IH]; simpl; [lia|].
  destruct (Ascii.eqb c NUL); simpl; lia.
Qed.

Lemma substring_0_prefix (n : nat) :
  forall s, exists rest, s = (String.substring 0 n s ++ rest)%string.
Proof.
  induction n as [|n IH]; intros [|c s]; simpl.
  - now exists EmptyString.
  - now exists (String c s).
  - now exists EmptyString.
  - destruct (IH s) as [rest Hr]. exists rest.
    change (String c s = String c (String.substring 0 n s ++ rest)%string).
    now f_equal.
Qed.

Lemma length_substring_0_le (n : nat) :
  forall s, (String.length (String.substring 0 n s) <= n)%nat.
Proof.
  induction n as [|n IH]; intros [|c s]; simpl; try lia.
  specialize (IH s). lia.
Qed.

Lemma substring_0_length (s : string) :
  String.substring 0 (String.length s) s = s.
Proof. induction s as [|c s IH]; simpl; [reflexivity|now rewrite IH]. Qed.

Lemma string_app_assoc (a b c : string) :
  ((a ++ b) ++ c)%string = (a ++ (b ++ c))%string.
Proof.
  induction a as [|x a IH]; [reflexivity|].
  change (String x ((a ++ b) ++ c)%string = String x (a ++ (b ++ c))%string).
  now f_equal.
Qed.

Lemma last_index_of_None (chars s : string) :
  TestFrameworkTests.last_index_of chars s = None ->
  forall i a, String.get i s = Some a ->
              TestFrameworkTests.char_in a chars = false.
Proof.
  induction s as [|c s IH]; simpl; intros H i a Hg; [discriminate|].
  destruct (TestFrameworkTests.last_index_of chars s); [discriminate|].
  destruct (TestFrameworkTests.char_in c chars) eqn:Hc; [discriminate|].
  destruct i as [|i].
  - injection Hg as <-. exact Hc.
  - now apply (IH eq_refl i a).
Qed.

Lemma last_index_of_Some (chars s : string) (i : nat) :
  TestFrameworkTests.last_index_of chars s = Some i ->
  (i < String.length s)%nat /\
  exists a rest,
    s = (String.substring 0 i s ++ String a rest)%string /\
    TestFrameworkTests.char_in a chars = true /\
    TestFrameworkTests.last_index_of chars rest = None.
Proof.
  revert i. induction s as [|c s IH]; simpl; intros i H; [discriminate|].
  destruct (TestFrameworkTests.last_index_of chars s) as [i'|] eqn:Hl.
  - injection H as <-. destruct (IH i' eq_refl) as (Hi & a & rest & Hs & Ha & Hr).
    split; [lia|]. exists a, rest. repeat split; auto.
    change (String c s
            = String c (String.substring 0 i' s ++ String a rest)%string).
    now f_equal.
  - destruct (TestFrameworkTests.char_in c chars) eqn:Hc; [|discriminate].
    injection H as <-. split; [lia|]. exists c, s. now repeat split.
Qed.

Lemma char_in_slash (a : ascii) :
  TestFrameworkTests.char_in a "/" = true -> a = "/"%char.
Proof.
  simpl. rewrite orb_false_r. apply Ascii.eqb_eq.
Qed.

(** The value of [path.substr(0, path.find_last_of("/"))] for a path below
    [npos] characters. *)
Lemma parent_of_path (path : string) :
  (N.of_nat (String.length path) <= TestFrameworkTests.npos)%N ->
  TestFrameworkTests.substr path 0
    (TestFrameworkTests.find_last_of path "/")
  = Some match TestFrameworkTests.last_index_of "/" path with
         | Some i => String.substring 0 i path
         | None => path
         end.
Proof.
  intros Hlen. unfold TestFrameworkTests.substr, TestFrameworkTests.find_last_of.
  destruct (N.ltb_spec (N.of_nat (String.length path)) 0) as [H0|_]; [lia|].
  rewrite N.sub_0_r. simpl N.to_nat at 1.
  destruct (TestFrameworkTests.last_index_of "/" path) as [i|] eqn:Hl.
  - destruct (last_index_of_Some "/" path i Hl) as [Hi _].
    rewrite N.min_l by lia. now rewrite Nat2N.id.
  - rewrite N.min_r by exact Hlen. rewrite Nat2N.id.
    now rewrite substring_0_length.
Qed.

Lemma path_below_npos (target : string) :
  (N.of_nat (String.length (c_str (String.substring 0 1023 target)))
   <= TestFrameworkTests.npos)%N.
Proof.
  pose proof (length_c_str_le (String.substring 0 1023 target)).
  pose proof (length_substring_0_le 1023 target).
  unfold TestFrameworkTests.npos.
  assert (N.of_nat (String.length (c_str (String.substring 0 1023 target)))
          <= 1023)%N by lia.
  assert (1023 <= 2 ^ 64 - 1)%N by (vm_compute; discriminate).
  lia.
Qed.

(** X10: when the link of the executable can be read, [getThisExecsLocation]
    returns, with [path] the C string of the first 1023 bytes of the link:
    a path without [/] is returned whole; otherwise the returned directory
    followed by [/] and a last component without [/] is the path, so that a
    path ending in [/] only loses that [/] and a path whose only [/] is the
    first gives the empty string. *)
Theorem getThisExecsLocation_splits_at_last_slash (target : string) :
  exists dir,
    TestFrameworkTests.getThisExecsLocation (Some target) = Normal dir /\
    ((dir = c_str (String.substring 0 1023 target) /\
      forall i, String.get i dir <> Some "/"%char) \/
     (exists last,
        c_str (String.substring 0 1023 target)
          = (dir ++ String "/" last)%string /\
        forall i, String.get i last <> Some "/"%char)).
Proof.
  unfold TestFrameworkTests.getThisExecsLocation, TestFrameworkTests.readlink.
  cbv beta iota zeta.
  set (path := c_str (String.substring 0 1023 target)).
  eexists. split.
  { unfold path. rewrite (parent_of_path _ (path_below_npos target)).
    reflexivity. }
  fold path.
  destruct (TestFrameworkTests.last_index_of "/" path) as [i|] eqn:Hl.
  - right. destruct (last_index_of_Some "/" path i Hl)
      as (_ & a & rest & Hs & Ha & Hr).
    apply char_in_slash in Ha. subst a. exists rest. split; [exact Hs|].
    intros j Hj. now pose proof (last_index_of_None "/" rest Hr j _ Hj).
  - left. split; [reflexivity|].
    intros j Hj. now pose proof (last_index_of_None "/" path Hl j _ Hj).
Qed.

(** X11: [getThisExecsLocation] throws exactly when the link cannot be read,
    and then the [std::runtime_error] of the source, never the
    [std::out_of_range] of [substr]; what it returns is a prefix of the link
    of at most 1023 characters. *)
Theorem getThisExecsLocation_fails_only_without_link (exe : option string) :
  match exe with
  | None =>
      TestFrameworkTests.getThisExecsLocation exe
      = Thrown (thrown (TestFrameworkTests.runtime_error
                          "Test error. Expected bytes >= 0"))
  | Some target =>
      exists dir rest,
        TestFrameworkTests.getThisExecsLocation exe = Normal dir /\
        target = (dir ++ rest)%string /\
        (String.length dir <= 1023)%nat
  end.
Proof.
  destruct exe as [target|]; [|reflexivity].
  unfold TestFrameworkTests.getThisExecsLocation, TestFrameworkTests.readlink.
  cbv beta iota zeta.
  assert (Hgo : forall d r,
            match TestFrameworkTests.last_index_of "/"
                    (c_str (String.substring 0 1023 target)) with
            | Some i => String.substring 0 i
                          (c_str (String.substring 0 1023 target))
            | None => c_str (String.substring 0 1023 target)
            end = d ->
            target = (d ++ r)%string -> (String.length d <= 1023)%nat ->
            exists dir rest,
              match TestFrameworkTests.substr
                      (c_str (String.substring 0 1023 target)) 0
                      (TestFrameworkTests.find_last_of
                         (c_str (String.substring 0 1023 target)) "/") with
              | Some parentDir => Normal parentDir
              | None => Thrown (thrown TestFrameworkTests.out_of_range)
              end = Normal (E:=TestFrameworkTests.std_exception) dir /\
              target = (dir ++ rest)%string /\
              (String.length dir <= 1023)%nat).
  { intros d r Hd Ht Hl. exists d, r.
    rewrite (parent_of_path _ (path_below_npos target)), Hd. now repeat split. }
  set (placed := String.substring 0 1023 target) in *.
  assert (Hpath : exists r1, target = (c_str placed ++ r1)%string).
  { destruct (substring_0_prefix 1023 target) as [r Hr].
    destruct (c_str_prefix placed) as (r' & Hr' & _).
    exists (r' ++ r)%string. fold placed in Hr.
    rewrite <- string_app_assoc, <- Hr'. exact Hr. }
  assert (Hlen : (String.length (c_str placed) <= 1023)%nat).
  { pose proof (length_c_str_le placed).
    pose proof (length_substring_0_le 1023 target). unfold placed in *. lia. }
  destruct Hpath as [r1 Hr1].
  destruct (TestFrameworkTests.last_index_of "/" (c_str placed)) as [i|] eqn:Hl.
  - destruct (substring_0_prefix i (c_str placed)) as [r2 Hr2].
    apply (Hgo (String.substring 0 i (c_str placed)) (r2 ++ r1)%string).
    + reflexivity.
    + rewrite <- string_app_assoc, <- Hr2. exact Hr1.
    + pose proof (length_substring_0_le i (c_str placed)).
      destruct (last_index_of_Some "/" _ i Hl) as [Hi _]. lia.
  - now apply (Hgo (c_str placed) r1).
Qed.

(** ** [TaskWithAttempts]: exceptions are not retried *)

(** X12: when the function of a [TaskWithAttempts] throws (with no promise
    or one whose shared state exists and is not ready, [unsettled]), [Run] returns [Ok] at once, however many
    attempts are left: the object is unchanged, no attempt is counted, the
    promise stays attached and holds the exception rather than
    [broken_promise]. *)
Theorem TaskWithAttempts_does_not_retry_exceptions {E St T : Type}
    (t : TaskWithAttempts E St T) (w : world E St T) (x : exn E) :
  fst (m_func (base t) (env w)) = Thrown x ->
  unsettled (base t) w ->
  fst (fst (TaskWithAttempts_Run t w)) = Normal Ok /\
  snd (fst (TaskWithAttempts_Run t w)) = t /\
  heap (snd (TaskWithAttempts_Run t w))
    = match m_promise (base t) with
      | Some p => <[p := Exception x]> (heap w)
      | None => heap w
      end.
Proof.
  intros Hf Hu. unfold TaskWithAttempts_Run, unsettled in *.
  destruct (m_promise (base t)) as [p|] eqn:Hp.
  - now rewrite (Run_thrown_Pending PromiseSame (base t) w x p Hf Hp Hu).
  - now rewrite (Run_thrown_without_promise PromiseSame (base t) w x Hf Hp).
Qed.

Lemma TaskWithAttempts_does_not_retry_exceptions_witness :
  unsettled (Samples.attached (Samples.failing "boom")) Samples.fresh /\
  heap (snd (TaskWithAttempts_Run
               {| base := Samples.attached (Samples.failing "boom");
                  m_attempts := 3 |} Samples.fresh)) !! 1%nat
    = Some (Exception (thrown "boom"%string)).
Proof.
  split; [reflexivity|].
  destruct (TaskWithAttempts_does_not_retry_exceptions
              {| base := Samples.attached (Samples.failing "boom");
                 m_attempts := 3 |} Samples.fresh (thrown "boom"%string)
              eq_refl eq_refl) as (_ & _ & Hh).
  rewrite Hh. reflexivity.
Defined.
